(** * tuncat: provisioning of a TUN/TAP interface and its readiness loop

    A shallow embedding of the C sources of tuncat.  The repository holds
    three iterations of one program:

    - [src/unnamed/part_000], the latest one (owner and group options);
      its functions are embedded at top level;
    - the first document of [src/main.c] (no owner, no group), embedded in
      [Module MainC];
    - the second document of [src/main.c], an earlier state of the first
      one: the same option loop and the same [infinite_loop], without
      [create_tun] and [close_tun].  It is not embedded apart.

    [signal_handler], [setup_signal_handlers], [infinite_loop] and
    [close_tun] are textually the same in every iteration that has them.

    The C functions talk to the kernel and to libc.  Every such call is an
    entry of a trace, answered by an environment that the theorems quantify
    over.  Integer widths are those of Linux LP64: [int] and [uid_t] have
    32 bits, [long] has 64. *)

From Stdlib Require Import ZArith List String Ascii Bool Lia.
Import ListNotations.

Local Open Scope Z_scope.

(** ** Constants of the C library and of the kernel headers *)

Definition EINTR : Z := 4.
Definition ENOMEM : Z := 12.
Definition EINVAL : Z := 22.
Definition ERANGE : Z := 34.
Definition ENAMETOOLONG : Z := 36.

Definition STDIN_FILENO : Z := 0.
Definition STDOUT_FILENO : Z := 1.

Definition O_RDWR : Z := 2.
Definition O_NONBLOCK : Z := 2048.

Definition IFNAMSIZ : Z := 16.
Definition IFF_TUN : Z := 1.
Definition IFF_TAP : Z := 2.
Definition IFF_NO_PI : Z := 4096.

Definition SIGINT : Z := 2.
Definition SIGTERM : Z := 15.

Definition DEFAULT_BUFFER_LEN : Z := 65536.

Definition UINT_MAX : Z := 4294967295.
Definition LONG_MAX : Z := 9223372036854775807.
Definition LONG_MIN : Z := -9223372036854775808.

(** Conversion to [int] and to [short] (two's complement wrap-around) and to
    [uid_t]/[gid_t] (reduction modulo 2^32). *)
Definition wrap_signed (bits : Z) (x : Z) : Z :=
  (x + 2 ^ (bits - 1)) mod 2 ^ bits - 2 ^ (bits - 1).
Definition to_int (x : Z) : Z := wrap_signed 32 x.
Definition to_short (x : Z) : Z := wrap_signed 16 x.
Definition to_id (x : Z) : Z := x mod 2 ^ 32.

(** ** C strings *)

Definition nl : string := String (ascii_of_nat 10) EmptyString.
Definition line (s : string) : string := (s ++ nl)%string.

Definition strlen (s : string) : Z := Z.of_nat (String.length s).

Definition code (c : ascii) : Z := Z.of_nat (nat_of_ascii c).

Definition isspace (c : ascii) : bool :=
  (code c =? 32) || ((9 <=? code c) && (code c <=? 13)).
Definition isdigit (c : ascii) : bool :=
  (48 <=? code c) && (code c <=? 57).
Definition issign (c : ascii) : bool :=
  (code c =? 43) || (code c =? 45).
Definition isnul (c : ascii) : bool := code c =? 0.

(** The byte a [char *] at offset [i] of [s] points to; the terminator is
    read at the end. *)
Definition char_at (s : string) (i : nat) : ascii :=
  match String.get i s with
  | Some c => c
  | None => zero
  end.

(** ** [strtol] in base 10

    White space is skipped, one sign is taken, then the longest run of
    digits.  Without a digit nothing is converted: the value is 0 and the
    end pointer is the start of the string (glibc leaves [errno] alone).  A
    value that does not fit a [long] is clamped and reported by [ERANGE]. *)

Fixpoint skip_spaces (s : string) : nat :=
  match s with
  | String c s' => if isspace c then S (skip_spaces s') else O
  | EmptyString => O
  end.

Fixpoint drop (n : nat) (s : string) : string :=
  match n, s with
  | S n', String _ s' => drop n' s'
  | _, _ => s
  end.

Fixpoint digits_value (s : string) (acc : Z) : Z :=
  match s with
  | String c s' => if isdigit c then digits_value s' (acc * 10 + (code c - 48)) else acc
  | EmptyString => acc
  end.

Fixpoint digits_count (s : string) : nat :=
  match s with
  | String c s' => if isdigit c then S (digits_count s') else O
  | EmptyString => O
  end.

Record strtol_result := mkStrtol {
  st_value : Z;        (* the returned long *)
  st_end : nat;        (* offset of the end pointer in the string *)
  st_range : bool      (* whether errno is set to ERANGE *)
}.

Definition strtol10 (nptr : string) : strtol_result :=
  let nsp := skip_spaces nptr in
  let s1 := drop nsp nptr in
  let neg := code (char_at s1 0) =? 45 in
  let nsg := if issign (char_at s1 0) then 1%nat else 0%nat in
  let s2 := drop nsg s1 in
  let nd := digits_count s2 in
  let mag := digits_value s2 0 in
  match nd with
  | O => mkStrtol 0 0 false
  | _ =>
      let v := if neg then - mag else mag in
      if LONG_MAX <? v then mkStrtol LONG_MAX (nsp + nsg + nd) true
      else if v <? LONG_MIN then mkStrtol LONG_MIN (nsp + nsg + nd) true
      else mkStrtol v (nsp + nsg + nd) false
  end.

(** ** The environment: calls, replies and the trace *)

Inductive request :=
| TUNSETIFF (ifr_name : string) (ifr_flags : Z)
| TUNSETPERSIST (arg : Z)
| TUNSETOWNER (uid : Z)
| TUNSETGROUP (gid : Z).

(** Every entry point of the kernel and of libc that can move data or change
    a descriptor.  [Read] and [Write] are the calls that carry payload. *)
Inductive call :=
| Open (path : string) (flags : Z)
| Close (fd : Z)
| Ioctl (fd : Z) (req : request)
| FcntlGetfl (fd : Z)
| FcntlSetfl (fd : Z) (flags : Z)
| Select (nfds : Z) (read_set write_set : Z)
| Read (fd : Z) (count : Z)
| Write (fd : Z) (data : string)
| Calloc (nmemb size : Z)
| Sigaction (signum : Z)
| Getpwnam (name : string)
| Getgrnam (name : string)
| Geteuid
| Getegid.

(** What a reply carries besides its value: the interface name the kernel
    confirmed, the descriptor sets [select] left, or the bytes read. *)
Inductive payload :=
| NoData
| Name (s : string)
| Ready (read_set write_set : Z)
| Bytes (s : string).

(** A call either succeeds with a value that is not negative, or fails: then
    it returns -1 (a null pointer for the calls that return one) and stores a
    positive code in [errno]. *)
Inductive reply :=
| Done (v : N) (out : payload)
| Fail (e : positive).

(** The trace.  [EvStderr] holds the format string of an
    [fprintf(stderr, ...)], its arguments are not kept.  The last two
    entries stand for no statement of the source: [main] writes them down
    where [create_tun] has returned and where [close_tun] is about to be
    entered, so that the trace tells which of the two happened. *)
Inductive event :=
| EvCall (c : call) (r : reply)
| EvStderr (msg : string)                 (* fprintf(stderr, ...) *)
| EvPerror (msg : string) (e : Z)         (* perror(msg) with errno = e *)
| EvCreateTunReturned (res tun_fd : Z)    (* main: create_tun came back *)
| EvCloseTunCalled (fd : Z).              (* main: close_tun is entered *)

Record world := mkWorld {
  oracle : nat -> call -> reply;    (* the reply to the k-th call *)
  signal_at : nat -> option Z;      (* the handled signal delivered during it *)
  clock : nat;                      (* calls made so far *)
  errno : Z;
  interrupt_flag : Z;               (* static volatile int interrupt_flag *)
  verbosity : Z;                    (* static int verbosity *)
  trace : list event                (* oldest first *)
}.

Definition set_errno (e : Z) (w : world) : world :=
  mkWorld (oracle w) (signal_at w) (clock w) e (interrupt_flag w) (verbosity w) (trace w).
Definition set_interrupt_flag (v : Z) (w : world) : world :=
  mkWorld (oracle w) (signal_at w) (clock w) (errno w) v (verbosity w) (trace w).
Definition set_verbosity (v : Z) (w : world) : world :=
  mkWorld (oracle w) (signal_at w) (clock w) (errno w) (interrupt_flag w) v (trace w).
Definition log (e : event) (w : world) : world :=
  mkWorld (oracle w) (signal_at w) (clock w) (errno w) (interrupt_flag w) (verbosity w)
          (trace w ++ [e]).
Definition tick (w : world) : world :=
  mkWorld (oracle w) (signal_at w) (S (clock w)) (errno w) (interrupt_flag w) (verbosity w)
          (trace w).

(** ** Statements with early return

    A C function body runs in [C R A]: it either goes on with a value of
    type [A] or has executed [return r].  A finished function is an [M R]. *)

Inductive flow (R A : Type) :=
| Next (a : A)
| Return (r : R).
Arguments Next {R A} a.
Arguments Return {R A} r.

Definition M (A : Type) : Type := world -> A * world.
Definition C (R A : Type) : Type := world -> flow R A * world.

Definition ret {R A} (a : A) : C R A := fun w => (Next a, w).
Definition return_ {R A} (r : R) : C R A := fun w => (Return r, w).
Definition bind {R A B} (m : C R A) (k : A -> C R B) : C R B :=
  fun w =>
    match m w with
    | (Next a, w') => k a w'
    | (Return r, w') => (Return r, w')
    end.

(** The body of a function whose last statement is a [return]. *)
Definition body {R} (m : C R R) : M R :=
  fun w =>
    match m w with
    | (Next r, w') => (r, w')
    | (Return r, w') => (r, w')
    end.

(** A call of a finished function from inside a body. *)
Definition invoke {R A} (m : M A) : C R A :=
  fun w => let (a, w') := m w in (Next a, w').

Declare Scope c_scope.
Delimit Scope c_scope with c.
Notation "x <- m ;; k" := (bind m (fun x => k))
  (at level 61, m at next level, right associativity) : c_scope.
Notation "m ;; k" := (bind m (fun _ => k))
  (at level 61, right associativity) : c_scope.
Notation "' p <- m ;; k" := (bind m (fun x => match x with p => k end))
  (at level 61, p pattern, m at next level, right associativity) : c_scope.
Local Open Scope c_scope.

Definition when {R} (b : bool) (m : C R unit) : C R unit :=
  if b then m else ret tt.

(** ** Primitive statements *)

Definition get_errno {R} : C R Z := fun w => (Next (errno w), w).
Definition put_errno {R} (e : Z) : C R unit := fun w => (Next tt, set_errno e w).
Definition get_interrupt_flag {R} : C R Z := fun w => (Next (interrupt_flag w), w).
Definition emit {R} (e : event) : C R unit := fun w => (Next tt, log e w).

Definition fprintf_stderr {R} (msg : string) : C R unit := emit (EvStderr msg).
Definition perror {R} (msg : string) : C R unit :=
  e <- get_errno ;; emit (EvPerror msg e).

(** [signal_handler] *)
Definition signal_handler (signum : Z) (w : world) : world :=
  set_interrupt_flag 1 w.

(** One call: the environment answers, a signal whose handler is installed
    may be delivered meanwhile, a failure stores its code in [errno].  A call
    that succeeds leaves [errno] as it was. *)
Definition ask {R} (c : call) : C R reply :=
  fun w =>
    let r := oracle w (clock w) c in
    let w1 := match signal_at w (clock w) with
              | Some signum => signal_handler signum w
              | None => w
              end in
    let w2 := match r with
              | Done _ _ => w1
              | Fail e => set_errno (Z.pos e) w1
              end in
    (Next r, tick (log (EvCall c r) w2)).

(** The [int] a system call returns. *)
Definition value_of (r : reply) : Z :=
  match r with
  | Done v _ => Z.of_N v
  | Fail _ => -1
  end.

(** The pointer a libc call returns: null on failure. *)
Definition pointer_of (r : reply) : Z :=
  match r with
  | Done v _ => Z.of_N v
  | Fail _ => 0
  end.

Definition syscall {R} (c : call) : C R Z := r <- ask c ;; ret (value_of r).

(** [strtol(nptr, &endptr, 10)]: the value and the end offset.  The end
    pointer is never null, so the test [endptr != NULL] of the callers is
    always true and is left out of their embeddings. *)
Definition strtol {R} (nptr : string) : C R (Z * nat) :=
  let r := strtol10 nptr in
  when (st_range r) (put_errno ERANGE) ;;
  ret (st_value r, st_end r).

(** ** [setup_signal_handlers] *)

Definition setup_signal_handlers : M Z :=
  body (
    res <- syscall (Sigaction SIGINT) ;;
    when (negb (res =? 0)) (return_ res) ;;
    res <- syscall (Sigaction SIGTERM) ;;
    ret res).

(** ** [get_uid_by_name] and [get_gid_by_name]

    A pointer argument is an [option]: [None] is the null pointer, [Some v]
    points to an object that holds [v].  The second component of the result
    is what the object behind [id] holds afterwards.

    A reply [Done v] of [getpwnam] or [getgrnam] is an entry whose id is
    [v]; [Fail] is the null pointer. *)

Definition is_null {A} (p : option A) : bool :=
  match p with
  | None => true
  | Some _ => false
  end.

Definition entry_id (r : reply) : option Z :=
  match r with
  | Done v _ => Some (to_id (Z.of_N v))
  | Fail _ => None
  end.

Definition get_uid_by_name (name : option string) (id : option Z) : M (Z * option Z) :=
  body (
    match name, id with
    | Some name, Some _ =>
        put_errno 0 ;;
        '(conv, endptr) <- strtol name ;;
        e <- get_errno ;;
        when (isnul (char_at name endptr) && (e =? 0)) (
          when ((conv <? 0) || (UINT_MAX <? conv)) (
            fprintf_stderr (line "Error: invalid user id") ;;
            return_ (ERANGE, id)) ;;
          return_ (0, Some (to_id conv))) ;;
        pw <- ask (Getpwnam name) ;;
        match entry_id pw with
        | None =>
            fprintf_stderr (line "Error: user not found") ;;
            return_ (EINVAL, id)
        | Some pw_uid => ret (0, Some pw_uid)
        end
    | _, _ => return_ (EINVAL, id)
    end).

Definition get_gid_by_name (name : option string) (id : option Z) : M (Z * option Z) :=
  body (
    match name, id with
    | Some name, Some _ =>
        put_errno 0 ;;
        '(conv, endptr) <- strtol name ;;
        e <- get_errno ;;
        when (isnul (char_at name endptr) && (e =? 0)) (
          when ((conv <? 0) || (UINT_MAX <? conv)) (
            fprintf_stderr (line "Error: invalid group id") ;;
            return_ (ERANGE, id)) ;;
          return_ (0, Some (to_id conv))) ;;
        gr <- ask (Getgrnam name) ;;
        match entry_id gr with
        | None =>
            fprintf_stderr (line "Error: group not found") ;;
            return_ (EINVAL, id)
        | Some gr_gid => ret (0, Some gr_gid)
        end
    | _, _ => return_ (EINVAL, id)
    end).

(** ** [infinite_loop]

    An [fd_set] is its bitmap.  [select] leaves in each set the descriptors
    that are ready; the loop never looks at them and sets its three bits
    again before each wait. *)

Definition FD_ZERO : Z := 0.
Definition FD_SET (fd : Z) (set : Z) : Z := Z.lor set (Z.shiftl 1 fd).

Definition ready_sets (r : reply) (read_set write_set : Z) : Z * Z :=
  match r with
  | Done _ (Ready rd wr) => (Z.land rd read_set, Z.land wr write_set)
  | _ => (read_set, write_set)
  end.

Inductive loop_exit := Continue | Break.

(** One turn of [while (res == 0)]: the new [res], the two sets, and whether
    the turn left by [break]. *)
Definition loop_iteration (tun_fd nfds : Z) (read_set write_set : Z)
  : M (Z * (Z * Z) * loop_exit) :=
  body (
    let read_set := FD_SET tun_fd read_set in
    let read_set := FD_SET STDIN_FILENO read_set in
    let write_set := FD_SET STDOUT_FILENO write_set in
    r <- ask (Select nfds read_set write_set) ;;
    let sets := ready_sets r read_set write_set in
    let res := value_of r in
    res <- (if res <? 0 then
              e <- get_errno ;;
              when (e =? EINTR) (return_ (0, sets, Break)) ;;
              perror "select()" ;;
              e <- get_errno ;;
              ret e
            else ret res) ;;
    flag <- get_interrupt_flag ;;
    when (negb (flag =? 0)) (
      fprintf_stderr (line "Received interrupt, exiting") ;;
      return_ (res, sets, Break)) ;;
    ret (res, sets, Continue)).

(** The loop; [None] when [fuel] turns were not enough to leave it. *)
Fixpoint infinite_loop_while (fuel : nat) (tun_fd nfds : Z) (read_set write_set : Z)
    (res : Z) : M (option Z) :=
  if res =? 0 then
    match fuel with
    | O => fun w => (None, w)
    | S fuel' =>
        fun w =>
          match loop_iteration tun_fd nfds read_set write_set w with
          | (res', (read_set', write_set'), Continue, w') =>
              infinite_loop_while fuel' tun_fd nfds read_set' write_set' res' w'
          | (res', _, Break, w') => (Some res', w')
          end
    end
  else fun w => (Some res, w).

Definition infinite_loop (fuel : nat) (tun_fd : Z) (buffer_len : Z) : M (option Z) :=
  body (
    let read_set := FD_ZERO in
    let write_set := FD_ZERO in
    let res := 0 in
    let nfds := tun_fd + 1 in
    buffer <- ask (Calloc buffer_len 1) ;;
    when (pointer_of buffer =? 0) (return_ (Some ENOMEM)) ;;
    invoke (infinite_loop_while fuel tun_fd nfds read_set write_set res)).

(** ** [create_tun] ([src/unnamed/part_000])

    The result is the returned code, what the object behind [tun_fd] holds
    afterwards, and what the caller's [name] buffer holds afterwards. *)

(** The string left in a destination of [n] bytes by [strncpy]; it is only
    used where the source is shorter than [n]. *)
Definition strncpy (src : string) (n : Z) : string :=
  substring 0 (Z.to_nat n) src.

(** [ifr.ifr_name] after [TUNSETIFF]: the kernel writes the name of the
    interface, a string shorter than [IFNAMSIZ]. *)
Definition confirmed_name (r : reply) (ifr_name : string) : string :=
  match r with
  | Done _ (Name s) => substring 0 (Z.to_nat (IFNAMSIZ - 1)) s
  | _ => ifr_name
  end.

Definition create_tun (tun_fd : option Z) (name : option string) (name_buffer_len : Z)
    (persistent : Z) (uid gid : Z) : M (Z * option Z * option string) :=
  body (
    when (is_null tun_fd) (return_ (EINVAL, tun_fd, name)) ;;
    fd <- syscall (Open "/dev/net/tun" O_RDWR) ;;
    when (fd <? 0) (
      fprintf_stderr (line "Error: could not open tun/tap module interface") ;;
      perror "open('/dev/net/tun')" ;;
      e <- get_errno ;;
      return_ (e, tun_fd, name)) ;;
    let ifr_flags := Z.lor IFF_TUN IFF_NO_PI in
    ifr_name <- match name with
                | Some n =>
                    when (IFNAMSIZ <=? strlen n) (
                      fprintf_stderr (line "Error: interface name too long") ;;
                      syscall (Close fd) ;;
                      return_ (ENAMETOOLONG, tun_fd, name)) ;;
                    ret (strncpy n IFNAMSIZ)
                | None => ret EmptyString
                end ;;
    r <- ask (Ioctl fd (TUNSETIFF ifr_name ifr_flags)) ;;
    let ifr_name := confirmed_name r ifr_name in
    when (value_of r <? 0) (
      fprintf_stderr (line "Error: cannot communicate with tun/tap module") ;;
      perror "ioctl(TUNSETIFF)" ;;
      syscall (Close fd) ;;
      e <- get_errno ;;
      return_ (e, tun_fd, name)) ;;
    saved_flags <- syscall (FcntlGetfl fd) ;;
    when (saved_flags <? 0) (
      fprintf_stderr (line "Error: unable to get flags from tun fd") ;;
      syscall (Close fd) ;;
      e <- get_errno ;;
      return_ (e, tun_fd, name)) ;;
    res <- syscall (FcntlSetfl fd (Z.lor saved_flags O_NONBLOCK)) ;;
    when (res <? 0) (
      fprintf_stderr (line "Error: unable to make tun fd non-blocking") ;;
      syscall (Close fd) ;;
      e <- get_errno ;;
      return_ (e, tun_fd, name)) ;;
    when (negb (persistent =? 0)) (
      res <- syscall (Ioctl fd (TUNSETPERSIST (if negb (persistent =? 0) then 1 else 0))) ;;
      when (res <? 0) (
        fprintf_stderr (line "Error: unable to make tun persistent") ;;
        syscall (Close fd) ;;
        e <- get_errno ;;
        return_ (e, tun_fd, name))) ;;
    when (negb (uid =? to_id (-1))) (
      res <- syscall (Ioctl fd (TUNSETOWNER uid)) ;;
      when (res <? 0) (
        fprintf_stderr (line "Error: unable to set owner to %ld") ;;
        perror "ioctl(TUNSETOWNER)" ;;
        syscall (Close fd) ;;
        e <- get_errno ;;
        return_ (e, tun_fd, name))) ;;
    when (negb (gid =? to_id (-1))) (
      res <- syscall (Ioctl fd (TUNSETGROUP gid)) ;;
      when (res <? 0) (
        fprintf_stderr (line "Error: unable to set group to %ld") ;;
        perror "ioctl(TUNSETGROUP)" ;;
        syscall (Close fd) ;;
        e <- get_errno ;;
        return_ (e, tun_fd, name))) ;;
    let actual_len := strlen ifr_name in
    name' <- match name with
             | Some _ =>
                 when (name_buffer_len <=? actual_len) (
                   fprintf_stderr (line "Error: interface name too long for buffer") ;;
                   syscall (Close fd) ;;
                   return_ (2, tun_fd, name)) ;;
                 ret (Some (strncpy ifr_name name_buffer_len))
             | None => ret None
             end ;;
    ret (0, Some fd, name')).

(** ** [close_tun] *)

Definition close_tun (fd : Z) : M Z :=
  body (
    when (fd <=? 0) (return_ EINVAL) ;;
    r <- syscall (Close fd) ;;
    when (negb (r =? 0)) (e <- get_errno ;; return_ e) ;;
    ret 0).

(** ** Command line

    [getopt_long] is libc: the command line is given as the options it
    returns one after the other, each with its [optarg]; after the last one
    it returns -1.  An option it does not know comes back as ['?']. *)

Record opt := mkOpt {
  chr : ascii;
  optarg : string
}.

Definition is_chr (o : opt) (c : string) : bool :=
  match c with
  | String c' EmptyString => Ascii.eqb (chr o) c'
  | _ => false
  end.

Definition incr_verbosity {R} : C R unit :=
  fun w => (Next tt, set_verbosity (verbosity w + 1) w).

(** ** [print_usage] and [main] ([src/unnamed/part_000]) *)

Definition print_usage : M unit :=
  body (
    fprintf_stderr (line "Usage: tuncat [-i tunX] [-b bufferlen] [-v] [-e] [-f] [-p]") ;;
    fprintf_stderr nl ;;
    fprintf_stderr (line "  -v, --verbose         increase verbosity (can be repeated)") ;;
    fprintf_stderr (line "  -i, --interface=tunX  use a (possibly existing) tun interface") ;;
    fprintf_stderr (line "  -e, --ethernet        add ethernet headers (tap instead of tun)") ;;
    fprintf_stderr (line "  -f, --flags           add flags+protocol preamble (2x2bytes)") ;;
    fprintf_stderr (line "  -p, --permanent       keep the device after program exit") ;;
    fprintf_stderr (line "  -u, --user=[id|name]  set the device owner (default is euid)") ;;
    fprintf_stderr (line "  -g, --group=[id|name] set the device group (default is egid)") ;;
    fprintf_stderr (line "  -b, --buffer=bytes    override default DEFAULT_BUFFER_LENB buffer size") ;;
    ret tt).

(** The local variables of [main] that the option loop assigns. *)
Record locals := mkLocals {
  res : Z;
  persistent : Z;
  buffer_len : Z;
  uid : Z;
  gid : Z;
  ifr_name : string;
  ifr_flags : Z
}.

Definition with_res (l : locals) (v : Z) : locals :=
  mkLocals v (persistent l) (buffer_len l) (uid l) (gid l) (ifr_name l) (ifr_flags l).
Definition with_persistent (l : locals) (v : Z) : locals :=
  mkLocals (res l) v (buffer_len l) (uid l) (gid l) (ifr_name l) (ifr_flags l).
Definition with_buffer_len (l : locals) (v : Z) : locals :=
  mkLocals (res l) (persistent l) v (uid l) (gid l) (ifr_name l) (ifr_flags l).
Definition with_uid (l : locals) (v : Z) : locals :=
  mkLocals (res l) (persistent l) (buffer_len l) v (gid l) (ifr_name l) (ifr_flags l).
Definition with_gid (l : locals) (v : Z) : locals :=
  mkLocals (res l) (persistent l) (buffer_len l) (uid l) v (ifr_name l) (ifr_flags l).
Definition with_ifr_name (l : locals) (v : string) : locals :=
  mkLocals (res l) (persistent l) (buffer_len l) (uid l) (gid l) v (ifr_flags l).
Definition with_ifr_flags (l : locals) (v : Z) : locals :=
  mkLocals (res l) (persistent l) (buffer_len l) (uid l) (gid l) (ifr_name l) v.

Definition deref (p : option Z) (otherwise : Z) : Z :=
  match p with
  | Some v => v
  | None => otherwise
  end.

(** The [default:] label, which the case ['b'] falls into. *)
Definition switch_default (l : locals) : M locals :=
  body (
    invoke print_usage ;;
    ret (with_res l 1)).

(** The [switch] of one turn of the option loop. *)
Definition switch (o : opt) (l : locals) : M locals :=
  body (
    if is_chr o "v" then
      incr_verbosity ;; ret l
    else if is_chr o "i" then
      when ((strlen (optarg o) =? 0) || (IFNAMSIZ <=? strlen (optarg o))) (
        fprintf_stderr (line "Error: invalid interface name") ;;
        return_ (with_res l EINVAL)) ;;
      ret (with_ifr_name l (strncpy (optarg o) IFNAMSIZ))
    else if is_chr o "e" then
      let flags := to_short (Z.land (ifr_flags l) (Z.lnot IFF_TUN)) in
      ret (with_ifr_flags l (to_short (Z.lor flags IFF_TAP)))
    else if is_chr o "f" then
      ret (with_ifr_flags l (to_short (Z.land (ifr_flags l) (Z.lnot IFF_NO_PI))))
    else if is_chr o "p" then
      ret (with_persistent l 1)
    else if is_chr o "u" then
      '(r, id) <- invoke (get_uid_by_name (Some (optarg o)) (Some (uid l))) ;;
      ret (with_res (with_uid l (deref id (uid l))) r)
    else if is_chr o "g" then
      '(r, id) <- invoke (get_gid_by_name (Some (optarg o)) (Some (gid l))) ;;
      ret (with_res (with_gid l (deref id (gid l))) r)
    else if is_chr o "b" then
      '(conv, _) <- strtol (optarg o) ;;
      let l := with_buffer_len l (to_int conv) in
      when (buffer_len l <=? 0) (
        fprintf_stderr (line "Error: invalid buffer size") ;;
        return_ (with_res l EINVAL)) ;;
      invoke (switch_default l)
    else
      invoke (switch_default l)).

(** [do { chr = getopt_long(...); switch (chr) ... } while (res == 0 && chr != -1)] *)
Fixpoint option_loop (cmdline : list opt) (l : locals) : M locals :=
  match cmdline with
  | [] => fun w => (l, w)
  | o :: rest =>
      fun w =>
        let (l', w') := switch o l w in
        if res l' =? 0 then option_loop rest l' w' else (l', w')
  end.

(** The [cleanup:] label. *)
Definition cleanup (tun_fd : Z) (res : Z) : M Z :=
  body (
    when (negb (tun_fd =? 0)) (
      emit (EvCloseTunCalled tun_fd) ;;
      invoke (close_tun tun_fd) ;;
      ret tt) ;;
    ret res).

(** [main].  The first [goto cleanup] jumps over the initializer of
    [tun_fd]: at the label the variable then holds [indeterminate], a value
    the program never chose. *)
Definition main (cmdline : list opt) (indeterminate : Z) : M Z :=
  body (
    euid <- syscall Geteuid ;;
    egid <- syscall Getegid ;;
    let l := mkLocals 0 0 DEFAULT_BUFFER_LEN (to_id euid) (to_id egid)
                      EmptyString IFF_NO_PI in
    l <- invoke (option_loop cmdline l) ;;
    when (negb (res l =? 0)) (
      r <- invoke (cleanup indeterminate (res l)) ;;
      return_ r) ;;
    let tun_fd := 0 in
    '(r, cell, name) <- invoke (create_tun (Some tun_fd) (Some (ifr_name l)) IFNAMSIZ
                                          (persistent l) (uid l) (gid l)) ;;
    let tun_fd := deref cell tun_fd in
    emit (EvCreateTunReturned r tun_fd) ;;
    when (negb (r =? 0)) (
      r <- invoke (cleanup tun_fd r) ;;
      return_ r) ;;
    fprintf_stderr (line "Listening on %s") ;;
    invoke (cleanup tun_fd r)).

(** ** The first document of [src/main.c] *)

Module MainC.

Definition print_usage : M unit :=
  body (
    fprintf_stderr (line "Usage: tuncat [-i tunX] [-b bufferlen] [-v] [-e] [-f] [-p]") ;;
    fprintf_stderr nl ;;
    fprintf_stderr (line "  -v, --verbose         increase verbosity (can be repeated)") ;;
    fprintf_stderr (line "  -i, --interface=tunX  use a (possibly existing) tun interface") ;;
    fprintf_stderr (line "  -e, --ethernet        add ethernet headers (tap instead of tun)") ;;
    fprintf_stderr (line "  -f, --flags           add flags+protocol preamble (2x2bytes)") ;;
    fprintf_stderr (line "  -p, --permanent       keep the device after program exit") ;;
    fprintf_stderr (line "  -b, --buffer=bytes    override default DEFAULT_BUFFER_LENB buffer size") ;;
    ret tt).

Definition create_tun (tun_fd : option Z) (name : option string) (name_buffer_len : Z)
    (persistent : Z) : M (Z * option Z * option string) :=
  body (
    when (is_null tun_fd) (return_ (EINVAL, tun_fd, name)) ;;
    fd <- syscall (Open "/dev/net/tun" O_RDWR) ;;
    when (fd <? 0) (
      fprintf_stderr (line "Error: could not open tun/tap module interface") ;;
      perror "open('/dev/net/tun')" ;;
      e <- get_errno ;;
      return_ (e, tun_fd, name)) ;;
    let ifr_flags := Z.lor IFF_TUN IFF_NO_PI in
    ifr_name <- match name with
                | Some n =>
                    when (IFNAMSIZ <=? strlen n) (
                      fprintf_stderr (line "Error: interface name too long") ;;
                      syscall (Close fd) ;;
                      return_ (ENAMETOOLONG, tun_fd, name)) ;;
                    ret (strncpy n IFNAMSIZ)
                | None => ret EmptyString
                end ;;
    r <- ask (Ioctl fd (TUNSETIFF ifr_name ifr_flags)) ;;
    let ifr_name := confirmed_name r ifr_name in
    when (value_of r <? 0) (
      fprintf_stderr (line "Error: cannot communicate with tun/tap module") ;;
      syscall (Close fd) ;;
      e <- get_errno ;;
      return_ (e, tun_fd, name)) ;;
    saved_flags <- syscall (FcntlGetfl fd) ;;
    when (saved_flags <? 0) (
      fprintf_stderr (line "Error: unable to get flags from tun fd") ;;
      syscall (Close fd) ;;
      e <- get_errno ;;
      return_ (e, tun_fd, name)) ;;
    res <- syscall (FcntlSetfl fd (Z.lor saved_flags O_NONBLOCK)) ;;
    when (res <? 0) (
      fprintf_stderr (line "Error: unable to make tun fd non-blocking") ;;
      syscall (Close fd) ;;
      e <- get_errno ;;
      return_ (e, tun_fd, name)) ;;
    when (negb (persistent =? 0)) (
      res <- syscall (Ioctl fd (TUNSETPERSIST (if negb (persistent =? 0) then 1 else 0))) ;;
      when (res <? 0) (
        fprintf_stderr (line "Error: unable to make tun persistent") ;;
        syscall (Close fd) ;;
        e <- get_errno ;;
        return_ (e, tun_fd, name))) ;;
    let actual_len := strlen ifr_name in
    name' <- match name with
             | Some _ =>
                 when (name_buffer_len <=? actual_len) (
                   fprintf_stderr (line "Error: interface name too long for buffer") ;;
                   syscall (Close fd) ;;
                   return_ (2, tun_fd, name)) ;;
                 ret (Some (strncpy ifr_name name_buffer_len))
             | None => ret None
             end ;;
    ret (0, Some fd, name')).

Record locals := mkLocals {
  res : Z;
  persistent : Z;
  buffer_len : Z;
  ifr_name : string;
  ifr_flags : Z
}.

Definition with_res (l : locals) (v : Z) : locals :=
  mkLocals v (persistent l) (buffer_len l) (ifr_name l) (ifr_flags l).
Definition with_persistent (l : locals) (v : Z) : locals :=
  mkLocals (res l) v (buffer_len l) (ifr_name l) (ifr_flags l).
Definition with_buffer_len (l : locals) (v : Z) : locals :=
  mkLocals (res l) (persistent l) v (ifr_name l) (ifr_flags l).
Definition with_ifr_name (l : locals) (v : string) : locals :=
  mkLocals (res l) (persistent l) (buffer_len l) v (ifr_flags l).
Definition with_ifr_flags (l : locals) (v : Z) : locals :=
  mkLocals (res l) (persistent l) (buffer_len l) (ifr_name l) v.

(** The [default:] label: the usage text and [break], [res] is left alone. *)
Definition switch_default (l : locals) : M locals :=
  body (
    invoke print_usage ;;
    ret l).

Definition switch (o : opt) (l : locals) : M locals :=
  body (
    if is_chr o "v" then
      incr_verbosity ;; ret l
    else if is_chr o "i" then
      when ((strlen (optarg o) =? 0) || (IFNAMSIZ <=? strlen (optarg o))) (
        fprintf_stderr (line "Error: invalid interface name") ;;
        return_ (with_res l EINVAL)) ;;
      ret (with_ifr_name l (strncpy (optarg o) IFNAMSIZ))
    else if is_chr o "e" then
      let flags := to_short (Z.land (ifr_flags l) (Z.lnot IFF_TUN)) in
      ret (with_ifr_flags l (to_short (Z.lor flags IFF_TAP)))
    else if is_chr o "f" then
      ret (with_ifr_flags l (to_short (Z.land (ifr_flags l) (Z.lnot IFF_NO_PI))))
    else if is_chr o "p" then
      ret (with_persistent l 1)
    else if is_chr o "b" then
      '(conv, _) <- strtol (optarg o) ;;
      let l := with_buffer_len l (to_int conv) in
      when (buffer_len l <=? 0) (
        fprintf_stderr (line "Error: invalid buffer size") ;;
        return_ (with_res l EINVAL)) ;;
      invoke (switch_default l)
    else
      invoke (switch_default l)).

Fixpoint option_loop (cmdline : list opt) (l : locals) : M locals :=
  match cmdline with
  | [] => fun w => (l, w)
  | o :: rest =>
      fun w =>
        let (l', w') := switch o l w in
        if res l' =? 0 then option_loop rest l' w' else (l', w')
  end.

(** [main]: [create_tun] is called whatever the option loop left in [res],
    and its result replaces it. *)
Definition main (cmdline : list opt) : M Z :=
  body (
    let l := mkLocals 0 0 DEFAULT_BUFFER_LEN EmptyString IFF_NO_PI in
    l <- invoke (option_loop cmdline l) ;;
    let tun_fd := 0 in
    '(r, cell, name) <- invoke (create_tun (Some tun_fd) (Some (ifr_name l)) IFNAMSIZ
                                          (persistent l)) ;;
    let tun_fd := deref cell tun_fd in
    emit (EvCreateTunReturned r tun_fd) ;;
    when (negb (r =? 0)) (
      r <- invoke (cleanup tun_fd r) ;;
      return_ r) ;;
    fprintf_stderr (line "Listening on %s") ;;
    invoke (cleanup tun_fd r)).

End MainC.

(** * Reading a run *)

(** What a run added to the trace. *)
Definition emitted (w w' : world) : list event :=
  skipn (List.length (trace w)) (trace w').

(** The entries of a trace that [f] selects, in order. *)
Fixpoint collect {A} (f : event -> option A) (t : list event) : list A :=
  match t with
  | e :: t' =>
      match f e with
      | Some a => a :: collect f t'
      | None => collect f t'
      end
  | [] => []
  end.

(** The calls, in order. *)
Definition calls : list event -> list call :=
  collect (fun e => match e with EvCall c _ => Some c | _ => None end).

(** The descriptors that successful [open] calls returned. *)
Definition opened : list event -> list Z :=
  collect (fun e => match e with
                    | EvCall (Open _ _) (Done fd _) => Some (Z.of_N fd)
                    | _ => None
                    end).

(** The descriptors handed to [close].  The kernel lets go of the
    descriptor whatever [close] returns. *)
Definition closed : list event -> list Z :=
  collect (fun e => match e with EvCall (Close fd) _ => Some fd | _ => None end).

(** The flags of the create-or-attach requests. *)
Definition attach_flags : list event -> list Z :=
  collect (fun e => match e with
                    | EvCall (Ioctl _ (TUNSETIFF _ flags)) _ => Some flags
                    | _ => None
                    end).

(** The readiness waits, each with its reply. *)
Definition waits : list event -> list reply :=
  collect (fun e => match e with EvCall (Select _ _ _) r => Some r | _ => None end).

(** The [read] calls: descriptor and count. *)
Definition reads : list event -> list (Z * Z) :=
  collect (fun e => match e with EvCall (Read fd n) _ => Some (fd, n) | _ => None end).

(** The [write] calls: descriptor and bytes. *)
Definition writes : list event -> list (Z * string) :=
  collect (fun e => match e with EvCall (Write fd d) _ => Some (fd, d) | _ => None end).

(** The bytes handed to descriptor [fd] by [write] calls, in order. *)
Definition written_to (fd : Z) (t : list event) : string :=
  String.concat EmptyString
    (map snd (filter (fun x => fst x =? fd) (writes t))).

(** What [main] recorded when [create_tun] came back: its result and the
    content of [tun_fd]. *)
Definition acquisitions : list event -> list (Z * Z) :=
  collect (fun e => match e with EvCreateTunReturned r fd => Some (r, fd) | _ => None end).

(** The descriptors with which [main] entered [close_tun]. *)
Definition releases : list event -> list Z :=
  collect (fun e => match e with EvCloseTunCalled fd => Some fd | _ => None end).

(** Classes of events. *)
Definition is_transfer (e : event) : bool :=
  match e with
  | EvCall (Read _ _) _ => true
  | EvCall (Write _ _) _ => true
  | _ => false
  end.

(** Messages and directory or identity queries: nothing that touches a
    descriptor, and no record of [main]. *)
Definition is_quiet (e : event) : bool :=
  match e with
  | EvStderr _ => true
  | EvPerror _ _ => true
  | EvCall (Getpwnam _) _ => true
  | EvCall (Getgrnam _) _ => true
  | EvCall Geteuid _ => true
  | EvCall Getegid _ => true
  | _ => false
  end.

(** A create-or-attach request, if it is one, asks for TUN without packet
    information. *)
Definition attach_is_default (e : event) : bool :=
  match e with
  | EvCall (Ioctl _ (TUNSETIFF _ flags)) _ => flags =? Z.lor IFF_TUN IFF_NO_PI
  | _ => true
  end.

Definition is_record (e : event) : bool :=
  match e with
  | EvCreateTunReturned _ _ => true
  | EvCloseTunCalled _ => true
  | _ => false
  end.

(** Every event that a statement adds to the trace satisfies [P]. *)
Definition emitsC {R A} (P : event -> bool) (m : C R A) : Prop :=
  forall w, exists t, trace (snd (m w)) = trace w ++ t /\ forallb P t = true.
Definition emitsM {A} (P : event -> bool) (m : M A) : Prop :=
  forall w, exists t, trace (snd (m w)) = trace w ++ t /\ forallb P t = true.

(** The world after one call. *)
Definition after_call (c : call) (w : world) : world :=
  let r := oracle w (clock w) c in
  mkWorld (oracle w) (signal_at w) (S (clock w))
          (match r with Done _ _ => errno w | Fail e => Z.pos e end)
          (match signal_at w (clock w) with Some _ => 1 | None => interrupt_flag w end)
          (verbosity w)
          (trace w ++ [EvCall c r]).

(** ** Owner strings *)

Fixpoint all_digits (s : string) : bool :=
  match s with
  | String c s' => isdigit c && all_digits s'
  | EmptyString => true
  end.

(** One or more decimal digits and nothing else. *)
Definition decimal (s : string) : bool :=
  match s with
  | EmptyString => false
  | _ => all_digits s
  end.

Definition decimal_value (s : string) : Z := digits_value s 0.

Fixpoint no_nul (s : string) : bool :=
  match s with
  | String c s' => negb (isnul c) && no_nul s'
  | EmptyString => true
  end.

(** Some character is neither a digit, nor white space, nor a sign. *)
Fixpoint has_other (s : string) : bool :=
  match s with
  | String c s' => negb (isdigit c || isspace c || issign c) || has_other s'
  | EmptyString => false
  end.

Inductive owner_kind :=
| Literal (v : Z)       (* stored as it is *)
| OutOfRange            (* refused with ERANGE *)
| ByDirectory           (* looked up *)
| Unclassified.

Definition classify_owner (name : string) : owner_kind :=
  if decimal name then
    if decimal_value name <=? UINT_MAX then Literal (decimal_value name)
    else if decimal_value name <=? LONG_MAX then OutOfRange
    else ByDirectory
  else if no_nul name && has_other name then ByDirectory
  else Unclassified.

(** ** Environments used in the examples *)

Definition boot (o : nat -> call -> reply) (s : nat -> option Z) : world :=
  mkWorld o s 0 0 0 0 [].

Definition no_signal : nat -> option Z := fun _ => None.

(** Memory is granted, standard input holds the byte "A", standard input
    and standard output are ready at every wait, every write is taken. *)
Definition stdin_holds_A : nat -> call -> reply :=
  fun _ c =>
    match c with
    | Calloc _ _ => Done 4096 NoData
    | Select _ _ _ =>
        Done 2 (Ready (FD_SET STDIN_FILENO FD_ZERO) (FD_SET STDOUT_FILENO FD_ZERO))
    | Read fd _ => if fd =? STDIN_FILENO then Done 1 (Bytes "A") else Fail 11
    | Write _ data => Done (N.of_nat (String.length data)) NoData
    | _ => Done 0 NoData
    end.

(** Memory is granted and every wait is interrupted. *)
Definition always_eintr : nat -> call -> reply :=
  fun _ c =>
    match c with
    | Calloc _ _ => Done 4096 NoData
    | Select _ _ _ => Fail 4
    | _ => Done 0 NoData
    end.

(** Memory is granted and standard output is writable at every wait. *)
Definition stdout_ready : nat -> call -> reply :=
  fun _ c =>
    match c with
    | Calloc _ _ => Done 4096 NoData
    | Select _ _ _ => Done 1 (Ready FD_ZERO (FD_SET STDOUT_FILENO FD_ZERO))
    | _ => Done 0 NoData
    end.

(** SIGINT arrives during the second call, which is the first wait. *)
Definition sigint_in_first_wait : nat -> option Z :=
  fun k => if Nat.eqb k 1 then Some SIGINT else None.

(** The device opens as descriptor 3, the kernel names the interface
    "tun0", the caller is user and group 1000, nothing fails. *)
Definition all_granted : nat -> call -> reply :=
  fun _ c =>
    match c with
    | Open _ _ => Done 3 NoData
    | Ioctl _ (TUNSETIFF _ _) => Done 0 (Name "tun0")
    | Geteuid => Done 1000 NoData
    | Getegid => Done 1000 NoData
    | _ => Done 0 NoData
    end.

(** As [all_granted], but the kernel refuses the create-or-attach request
    with [EPERM]. *)
Definition attach_refused : nat -> call -> reply :=
  fun k c =>
    match c with
    | Ioctl _ (TUNSETIFF _ _) => Fail 1
    | _ => all_granted k c
    end.

(** As [all_granted], but the device opens as descriptor 0: standard input
    was closed when the program started. *)
Definition descriptor_zero : nat -> call -> reply :=
  fun k c =>
    match c with
    | Open _ _ => Done 0 NoData
    | _ => all_granted k c
    end.

(** The attempts to open a file, successful or not. *)
Definition open_attempts : list event -> list string :=
  collect (fun e => match e with EvCall (Open path _) _ => Some path | _ => None end).

(** The local variables of [main] before the option loop, for a caller
    whose effective ids are [euid] and [egid]. *)
Definition initial_locals (euid egid : Z) : locals :=
  mkLocals 0 0 DEFAULT_BUFFER_LEN (to_id euid) (to_id egid) EmptyString IFF_NO_PI.


(** The directory has no entry for any name. *)
Definition empty_directory : nat -> call -> reply :=
  fun _ c =>
    match c with
    | Getpwnam _ => Fail 2
    | Getgrnam _ => Fail 2
    | _ => Done 0 NoData
    end.

(** The directory knows every name as id 1000. *)
Definition full_directory : nat -> call -> reply :=
  fun _ c =>
    match c with
    | Getpwnam _ => Done 1000 NoData
    | Getgrnam _ => Done 1000 NoData
    | _ => Done 0 NoData
    end.

(** ** Further readings of a trace and further environments *)

(** [calloc] fails. *)
Definition no_memory : nat -> call -> reply :=
  fun _ c =>
    match c with
    | Calloc _ _ => Fail 12
    | _ => Done 0 NoData
    end.





(** The flag after a run: as before, or set. *)
Definition flag_kept (w w' : world) : Prop :=
  interrupt_flag w' = interrupt_flag w \/ interrupt_flag w' = 1.

Definition keeps_flagC {R A} (m : C R A) : Prop :=
  forall w, flag_kept w (snd (m w)).
Definition keeps_flagM {A} (m : M A) : Prop :=
  forall w, flag_kept w (snd (m w)).

(** Standard output is writable, and the flag is already set. *)
Definition interrupted : world :=
  mkWorld stdout_ready no_signal 0 0 1 0 [].

(** Both handlers are installed. *)
Definition handlers_granted : nat -> call -> reply :=
  fun _ _ => Done 0 NoData.

(** The interface names of the create-or-attach requests. *)
Definition attach_names : list event -> list string :=
  collect (fun e => match e with
                    | EvCall (Ioctl _ (TUNSETIFF nm _)) _ => Some nm
                    | _ => None
                    end).

(** The call opens a file, or works on descriptor [fd]. *)
Definition on_descriptor (fd : Z) (c : call) : bool :=
  match c with
  | Open _ _ => true
  | Close fd' => fd' =? fd
  | Ioctl fd' _ => fd' =? fd
  | FcntlGetfl fd' => fd' =? fd
  | FcntlSetfl fd' _ => fd' =? fd
  | _ => false
  end.

(** The name argument of [create_tun] does not fit [ifr.ifr_name]. *)
Definition too_long (name : option string) : bool :=
  match name with
  | Some n => IFNAMSIZ <=? strlen n
  | None => false
  end.

(** What [create_tun] copies into [ifr.ifr_name] before the request. *)
Definition requested_name (name : option string) : string :=
  match name with
  | Some n => strncpy n IFNAMSIZ
  | None => EmptyString
  end.

(** The calls of a [create_tun] that succeeds on descriptor [fd], where
    [saved] is what [F_GETFL] returned. *)
Definition success_calls (fd : Z) (name : option string) (saved persistent uid gid : Z)
  : list call :=
  [Open "/dev/net/tun" O_RDWR;
   Ioctl fd (TUNSETIFF (requested_name name) (Z.lor IFF_TUN IFF_NO_PI));
   FcntlGetfl fd;
   FcntlSetfl fd (Z.lor saved O_NONBLOCK)]
  ++ (if persistent =? 0 then [] else [Ioctl fd (TUNSETPERSIST 1)])
  ++ (if uid =? to_id (-1) then [] else [Ioctl fd (TUNSETOWNER uid)])
  ++ (if gid =? to_id (-1) then [] else [Ioctl fd (TUNSETGROUP gid)]).


(** The signals for which a handler was asked, and the buffers asked for. *)
Definition handlers_asked : list event -> list Z :=
  collect (fun e => match e with EvCall (Sigaction s) _ => Some s | _ => None end).
Definition buffers_asked : list event -> list Z :=
  collect (fun e => match e with EvCall (Calloc n _) _ => Some n | _ => None end).

(** What the [cleanup:] label can add to the trace. *)
Definition is_release (e : event) : bool :=
  match e with
  | EvCloseTunCalled _ => true
  | EvCall (Close _) _ => true
  | _ => false
  end.

(** Nothing of the forwarding loop and nothing of the signal set-up. *)
Definition is_provisioning (e : event) : bool :=
  match e with
  | EvCall (Select _ _ _) _ => false
  | EvCall (Calloc _ _) _ => false
  | EvCall (Sigaction _) _ => false
  | EvCall (Read _ _) _ => false
  | EvCall (Write _ _) _ => false
  | _ => true
  end.


(** The values [main] leaves in [ifr.ifr_flags]. *)
Definition main_flags (flags : Z) : bool :=
  (flags =? 0) || (flags =? IFF_TAP) || (flags =? IFF_NO_PI)
  || (flags =? Z.lor IFF_TAP IFF_NO_PI).

(** [main] after its two identity calls, as one expression. *)
Definition main_after_options (indeterminate : Z) (l : locals) (w3 : world) : Z * world :=
  if res l =? 0 then
    let '(r, cell, _, w4) :=
      create_tun (Some 0) (Some (ifr_name l)) IFNAMSIZ (persistent l) (uid l) (gid l) w3 in
    let tun_fd := deref cell 0 in
    let w5 := log (EvCreateTunReturned r tun_fd) w4 in
    if r =? 0 then cleanup tun_fd r (log (EvStderr (line "Listening on %s")) w5)
    else cleanup tun_fd r w5
  else cleanup indeterminate (res l) w3.


(** * Properties *)

(** ** Traces *)

Lemma emitted_app (w w' : world) (t : list event) :
  trace w' = trace w ++ t -> emitted w w' = t.
Proof.
  intros H. unfold emitted. rewrite H.
  rewrite skipn_app, Nat.sub_diag, skipn_all. reflexivity.
Qed.

Lemma collect_app {A} (f : event -> option A) (t1 t2 : list event) :
  collect f (t1 ++ t2) = collect f t1 ++ collect f t2.
Proof.
  induction t1 as [|e t1 IH]; cbn [collect app]; [reflexivity|].
  destruct (f e); rewrite IH; reflexivity.
Qed.

Lemma collect_none {A} (f : event -> option A) (P : event -> bool) (t : list event) :
  (forall e, P e = true -> f e = None) ->
  forallb P t = true -> collect f t = [].
Proof.
  intros HP. induction t as [|e t IH]; cbn [forallb collect]; [reflexivity|].
  intros H. apply andb_true_iff in H. destruct H as [He Ht].
  rewrite (HP e He). auto.
Qed.

Lemma forallb_weaken (P Q : event -> bool) (t : list event) :
  (forall e, P e = true -> Q e = true) ->
  forallb P t = true -> forallb Q t = true.
Proof.
  intros HPQ. induction t as [|e t IH]; cbn [forallb]; [reflexivity|].
  intros H. apply andb_true_iff in H. destruct H as [He Ht].
  rewrite (HPQ e He), (IH Ht). reflexivity.
Qed.

(** ** One call *)

Lemma ask_eq {R} (c : call) (w : world) :
  @ask R c w = (Next (oracle w (clock w) c), after_call c w).
Proof.
  unfold ask, after_call.
  destruct (signal_at w (clock w)); destruct (oracle w (clock w) c); reflexivity.
Qed.

Lemma syscall_eq {R} (c : call) (w : world) :
  @syscall R c w = (Next (value_of (oracle w (clock w) c)), after_call c w).
Proof. unfold syscall, bind. rewrite ask_eq. reflexivity. Qed.

Lemma of_N_ltb_0 (v : N) : (Z.of_N v <? 0) = false.
Proof. apply Z.ltb_ge. lia. Qed.

(** ** What every event of a statement satisfies *)

Section Emits.
Variable P : event -> bool.

Lemma emits_ret {R A} (a : A) : emitsC P (@ret R A a).
Proof. intros w. exists []. rewrite app_nil_r. auto. Qed.

Lemma emits_return {R A} (r : R) : emitsC P (@return_ R A r).
Proof. intros w. exists []. rewrite app_nil_r. auto. Qed.

Lemma emits_bind {R A B} (m : C R A) (k : A -> C R B) :
  emitsC P m -> (forall a, emitsC P (k a)) -> emitsC P (bind m k).
Proof.
  intros Hm Hk w. unfold bind.
  destruct (Hm w) as (t1 & E1 & F1).
  destruct (m w) as [[a|r] w1]; cbn [snd] in *.
  - destruct (Hk a w1) as (t2 & E2 & F2).
    exists (t1 ++ t2). rewrite E2, E1, app_assoc, forallb_app, F1, F2. auto.
  - exists t1. auto.
Qed.

Lemma emits_body {R} (m : C R R) : emitsC P m -> emitsM P (body m).
Proof.
  intros Hm w. unfold body. destruct (Hm w) as (t & E & F).
  destruct (m w) as [[a|r] w1]; exists t; auto.
Qed.

Lemma emits_invoke {R A} (f : M A) : emitsM P f -> emitsC P (@invoke R A f).
Proof.
  intros Hf w. unfold invoke. destruct (Hf w) as (t & E & F).
  destruct (f w) as [a w1]. exists t. auto.
Qed.

Lemma emits_when {R} (b : bool) (m : C R unit) :
  emitsC P m -> emitsC P (when b m).
Proof. intros Hm. destruct b; [exact Hm | apply emits_ret]. Qed.

Lemma emits_emit {R} (e : event) : P e = true -> emitsC P (@emit R e).
Proof.
  intros He w. exists [e]. cbn [emit snd log trace forallb].
  rewrite He. auto.
Qed.

Lemma emits_ask {R} (c : call) :
  (forall r, P (EvCall c r) = true) -> emitsC P (@ask R c).
Proof.
  intros Hc w. rewrite ask_eq. exists [EvCall c (oracle w (clock w) c)].
  cbn [snd after_call trace forallb]. rewrite Hc. auto.
Qed.

Lemma emits_syscall {R} (c : call) :
  (forall r, P (EvCall c r) = true) -> emitsC P (@syscall R c).
Proof.
  intros Hc. unfold syscall. apply emits_bind; [apply emits_ask, Hc|].
  intros r. apply emits_ret.
Qed.

Lemma emits_get_errno {R} : emitsC P (@get_errno R).
Proof. intros w. exists []. rewrite app_nil_r. auto. Qed.

Lemma emits_put_errno {R} (e : Z) : emitsC P (@put_errno R e).
Proof. intros w. exists []. cbn. rewrite app_nil_r. auto. Qed.

Lemma emits_get_interrupt_flag {R} : emitsC P (@get_interrupt_flag R).
Proof. intros w. exists []. rewrite app_nil_r. auto. Qed.

Lemma emits_incr_verbosity {R} : emitsC P (@incr_verbosity R).
Proof. intros w. exists []. cbn. rewrite app_nil_r. auto. Qed.

Lemma emits_strtol {R} (s : string) : emitsC P (@strtol R s).
Proof.
  unfold strtol. apply emits_bind; [|intros; apply emits_ret].
  apply emits_when, emits_put_errno.
Qed.

Lemma emits_fprintf_stderr {R} (msg : string) :
  P (EvStderr msg) = true -> emitsC P (@fprintf_stderr R msg).
Proof. apply emits_emit. Qed.

Lemma emits_perror {R} (msg : string) :
  (forall e, P (EvPerror msg e) = true) -> emitsC P (@perror R msg).
Proof.
  intros H. unfold perror. apply emits_bind; [apply emits_get_errno|].
  intros e. apply emits_emit, H.
Qed.
End Emits.

(** Goes through the statements of a body, one rule per statement. *)
Ltac emits_step :=
  match goal with
  | |- emitsM _ (body _) => apply emits_body
  | |- emitsC _ (bind _ _) => apply emits_bind; [|intros]
  | |- emitsC _ (ret _) => apply emits_ret
  | |- emitsC _ (return_ _) => apply emits_return
  | |- emitsC _ (when _ _) => apply emits_when
  | |- emitsC _ (syscall _) => apply emits_syscall; intros; reflexivity
  | |- emitsC _ (ask _) => apply emits_ask; intros; reflexivity
  | |- emitsC _ (fprintf_stderr _) => apply emits_fprintf_stderr; reflexivity
  | |- emitsC _ (emit _) => apply emits_emit; reflexivity
  | |- emitsC _ (perror _) => apply emits_perror; intros; reflexivity
  | |- emitsC _ get_errno => apply emits_get_errno
  | |- emitsC _ (put_errno _) => apply emits_put_errno
  | |- emitsC _ get_interrupt_flag => apply emits_get_interrupt_flag
  | |- emitsC _ incr_verbosity => apply emits_incr_verbosity
  | |- emitsC _ (strtol _) => apply emits_strtol
  | |- emitsC _ (invoke _) => apply emits_invoke
  | |- emitsC _ (if ?b then _ else _) => destruct b
  | |- emitsC _ (match ?x with Some _ => _ | None => _ end) => destruct x
  | |- emitsC _ (match ?x with (_, _) => _ end) => destruct x
  | |- emitsC _ (let _ := _ in _) => cbv zeta
  end.

Ltac emits := repeat emits_step.

(** ** The loop moves no payload *)

Lemma loop_iteration_emits (P : event -> bool) (tun_fd nfds rs ws : Z) :
  (forall c r, is_transfer (EvCall c r) = false -> P (EvCall c r) = true) ->
  (forall m, P (EvStderr m) = true) ->
  (forall m e, P (EvPerror m e) = true) ->
  emitsM P (loop_iteration tun_fd nfds rs ws).
Proof.
  intros Hc Hs Hp. unfold loop_iteration.
  apply emits_body. apply emits_bind; [apply emits_ask; intros; apply Hc; reflexivity|].
  intros r. apply emits_bind.
  - destruct (value_of r <? 0); [|apply emits_ret].
    apply emits_bind; [apply emits_get_errno|]. intros e.
    apply emits_bind; [apply emits_when, emits_return|]. intros _.
    apply emits_bind; [apply emits_perror; intros; apply Hp|]. intros _.
    apply emits_bind; [apply emits_get_errno|]. intros; apply emits_ret.
  - intros res'. apply emits_bind; [apply emits_get_interrupt_flag|]. intros flag.
    apply emits_bind; [|intros; apply emits_ret].
    apply emits_when, emits_bind; [apply emits_fprintf_stderr, Hs|].
    intros; apply emits_return.
Qed.

Lemma infinite_loop_while_emits (P : event -> bool) (fuel : nat) :
  (forall c r, is_transfer (EvCall c r) = false -> P (EvCall c r) = true) ->
  (forall m, P (EvStderr m) = true) ->
  (forall m e, P (EvPerror m e) = true) ->
  forall tun_fd nfds rs ws res,
    emitsM P (infinite_loop_while fuel tun_fd nfds rs ws res).
Proof.
  intros Hc Hs Hp.
  induction fuel as [|fuel IH]; intros tun_fd nfds rs ws res w;
    cbn [infinite_loop_while]; destruct (res =? 0);
    try (exists []; rewrite app_nil_r; cbn [snd forallb]; auto; fail).
  destruct (loop_iteration_emits P tun_fd nfds rs ws Hc Hs Hp w) as (t1 & E1 & F1).
  destruct (loop_iteration tun_fd nfds rs ws w) as [[[res' [rs' ws']] ex] w1].
  cbn [snd] in E1. destruct ex.
  - destruct (IH tun_fd nfds rs' ws' res' w1) as (t2 & E2 & F2).
    exists (t1 ++ t2). rewrite E2, E1, app_assoc, forallb_app, F1, F2. auto.
  - exists t1. auto.
Qed.

Lemma infinite_loop_emits (fuel : nat) (tun_fd buffer_len : Z) :
  emitsM (fun e => negb (is_transfer e)) (infinite_loop fuel tun_fd buffer_len).
Proof.
  unfold infinite_loop. emits.
  apply infinite_loop_while_emits.
  - intros c r H. rewrite H. reflexivity.
  - reflexivity.
  - reflexivity.
Qed.

(** ** Running a body statement by statement *)

Section Run.
Context {R A : Type}.
Variables (k : A -> C R R) (w : world).

Lemma body_ret (r : R) : body (ret r) w = (r, w).
Proof. reflexivity. Qed.

Lemma body_return (r : R) : body (return_ r) w = (r, w).
Proof. reflexivity. Qed.

Lemma body_invoke (f : M R) : body (invoke f) w = f w.
Proof. unfold body, invoke. destruct (f w). reflexivity. Qed.

Lemma body_bind_ret (a : A) : body (bind (ret a) k) w = body (k a) w.
Proof. reflexivity. Qed.

Lemma body_bind_return (r : R) : body (bind (@return_ R A r) k) w = (r, w).
Proof. reflexivity. Qed.

Lemma body_bind_bind {B} (m : C R B) (k1 : B -> C R A) :
  body (bind (bind m k1) k) w = body (bind m (fun b => bind (k1 b) k)) w.
Proof. unfold body, bind. destruct (m w) as [[b|r] w']; reflexivity. Qed.

Lemma body_bind_invoke (f : M A) :
  body (bind (invoke f) k) w = body (k (fst (f w))) (snd (f w)).
Proof. unfold body, bind, invoke. destruct (f w). reflexivity. Qed.
End Run.

Section RunPrimitive.
Context {R : Type}.
Variable (w : world).

Lemma body_bind_ask (c : call) (k : reply -> C R R) :
  body (bind (ask c) k) w = body (k (oracle w (clock w) c)) (after_call c w).
Proof. unfold body, bind. rewrite ask_eq. reflexivity. Qed.

Lemma body_bind_syscall (c : call) (k : Z -> C R R) :
  body (bind (syscall c) k) w
  = body (k (value_of (oracle w (clock w) c))) (after_call c w).
Proof. unfold body, bind. rewrite syscall_eq. reflexivity. Qed.

Lemma body_bind_get_errno (k : Z -> C R R) :
  body (bind get_errno k) w = body (k (errno w)) w.
Proof. reflexivity. Qed.

Lemma body_bind_put_errno (e : Z) (k : unit -> C R R) :
  body (bind (put_errno e) k) w = body (k tt) (set_errno e w).
Proof. reflexivity. Qed.

Lemma body_bind_get_interrupt_flag (k : Z -> C R R) :
  body (bind get_interrupt_flag k) w = body (k (interrupt_flag w)) w.
Proof. reflexivity. Qed.

Lemma body_bind_emit (e : event) (k : unit -> C R R) :
  body (bind (emit e) k) w = body (k tt) (log e w).
Proof. reflexivity. Qed.

Lemma body_bind_incr_verbosity (k : unit -> C R R) :
  body (bind incr_verbosity k) w = body (k tt) (set_verbosity (verbosity w + 1) w).
Proof. reflexivity. Qed.
End RunPrimitive.

Ltac known_reply :=
  match goal with
  | H : oracle ?o ?k ?c = _ |- context [oracle ?o ?k ?c] => rewrite H
  end.

Ltac run_rewrite :=
  first
    [ known_reply
    | rewrite body_bind_bind
    | rewrite body_bind_ret
    | rewrite body_bind_return
    | rewrite body_bind_ask
    | rewrite body_bind_syscall
    | rewrite body_bind_get_errno
    | rewrite body_bind_put_errno
    | rewrite body_bind_get_interrupt_flag
    | rewrite body_bind_emit
    | rewrite body_bind_incr_verbosity
    | rewrite body_bind_invoke
    | rewrite body_ret
    | rewrite body_return
    | rewrite body_invoke
    | progress unfold when, fprintf_stderr, perror, strtol
    | progress cbn [after_call log set_errno set_verbosity is_null
                    oracle signal_at clock errno interrupt_flag verbosity trace
                    value_of pointer_of negb fst snd]
    | rewrite of_N_ltb_0
    | progress change (-1 <? 0) with true ].

Ltac run_split :=
  match goal with
  | |- context [value_of (oracle ?o ?k ?c)] =>
      let E := fresh "E" in destruct (oracle o k c) eqn:E
  | |- context [match oracle ?o ?k ?c with _ => _ end] =>
      let E := fresh "E" in destruct (oracle o k c) eqn:E
  | |- context [body (bind (if ?b then _ else _) _)] =>
      let E := fresh "E" in destruct b eqn:E
  | |- context [body (if ?b then _ else _)] =>
      let E := fresh "E" in destruct b eqn:E
  | |- context [body (bind (match ?n with Some _ => _ | None => _ end) _)] =>
      destruct n
  end.

Ltac run := repeat (first [run_rewrite | run_split]).

(** Brings [trace w'] to the form [trace w ++ [e1; ...; en]]. *)
Ltac read_trace :=
  cbn [after_call log set_errno set_verbosity
       oracle signal_at clock errno interrupt_flag verbosity trace];
  repeat known_reply;
  repeat rewrite <- app_assoc; cbn [app].

(** ** [close_tun] and the null check of [create_tun] *)

(** C9. Called with a descriptor that is not positive, [close_tun] returns
    [EINVAL], which is not zero, and calls nothing: the world is the one it
    was given. *)
Theorem close_tun_rejects_unacquired (fd : Z) (w : world) :
  fd <= 0 -> close_tun fd w = (EINVAL, w) /\ EINVAL <> 0.
Proof.
  intros H. split; [|discriminate].
  unfold close_tun, when.
  replace (fd <=? 0) with true by (symmetry; apply Z.leb_le; exact H).
  reflexivity.
Qed.

Lemma close_tun_rejects_unacquired_witness :
  close_tun 0 (boot stdout_ready no_signal) = (EINVAL, boot stdout_ready no_signal)
  /\ EINVAL <> 0.
Proof. apply (close_tun_rejects_unacquired 0). lia. Defined.

(** C10. With a null [tun_fd], [create_tun] returns [EINVAL] at once, in
    both iterations of the program: the world is the one it was given, so
    the device was not opened and nothing was requested. *)
Theorem create_tun_null_pointer (name : option string) (name_buffer_len persistent uid gid : Z)
    (w : world) :
  create_tun None name name_buffer_len persistent uid gid w = (EINVAL, None, name, w)
  /\ MainC.create_tun None name name_buffer_len persistent w = (EINVAL, None, name, w).
Proof. split; reflexivity. Qed.

(** ** The readiness loop *)

(** C1, as the code has it.  Whatever the environment offers and however
    many turns the loop takes, whether it has returned or not, it has
    issued no [read] and no [write]: no byte went to any descriptor. *)
Theorem infinite_loop_moves_no_payload (fuel : nat) (tun_fd buffer_len : Z) (w : world) :
  let t := emitted w (snd (infinite_loop fuel tun_fd buffer_len w)) in
  reads t = [] /\ writes t = [] /\ forall fd, written_to fd t = EmptyString.
Proof.
  destruct (infinite_loop_emits fuel tun_fd buffer_len w) as (t & E & F).
  cbv zeta. rewrite (emitted_app _ _ _ E).
  assert (Hr : reads t = []).
  { apply collect_none with (P := fun e => negb (is_transfer e)); [|exact F].
    intros [[] ?| | | |]; cbn; congruence. }
  assert (Hw : writes t = []).
  { apply collect_none with (P := fun e => negb (is_transfer e)); [|exact F].
    intros [[] ?| | | |]; cbn; congruence. }
  split; [exact Hr|]. split; [exact Hw|].
  intros fd. unfold written_to. rewrite Hw. reflexivity.
Qed.

(** C1, as the claim has it, fails.  Standard input holds the byte "A" and
    is reported readable; the loop returns, and the device (descriptor 3)
    was handed nothing. *)
Lemma infinite_loop_drops_input :
  let w := boot stdin_holds_A no_signal in
  let run := infinite_loop 8 3 DEFAULT_BUFFER_LEN w in
  (forall k, oracle w k (Read STDIN_FILENO DEFAULT_BUFFER_LEN) = Done 1 (Bytes "A"))
  /\ fst run = Some 2
  /\ calls (emitted w (snd run))
     = [Calloc DEFAULT_BUFFER_LEN 1; Select 4 9 2]
  /\ written_to 3 (emitted w (snd run)) <> "A"%string.
Proof.
  cbv zeta. split; [intros k; reflexivity|].
  split; [vm_compute; reflexivity|].
  split; [vm_compute; reflexivity|].
  vm_compute. discriminate.
Qed.

Lemma infinite_loop_unfold (fuel : nat) (tun_fd buffer_len : Z) (w : world) (p : N)
    (out : payload) :
  oracle w (clock w) (Calloc buffer_len 1) = Done p out -> p <> 0%N ->
  infinite_loop (S fuel) tun_fd buffer_len w
  = match loop_iteration tun_fd (tun_fd + 1) FD_ZERO FD_ZERO
            (after_call (Calloc buffer_len 1) w) with
    | (res', (read_set', write_set'), Continue, w') =>
        infinite_loop_while fuel tun_fd (tun_fd + 1) read_set' write_set' res' w'
    | (res', _, Break, w') => (Some res', w')
    end.
Proof.
  intros Hc Hp. unfold infinite_loop. cbv zeta.
  rewrite body_bind_ask, Hc. unfold when. cbn [pointer_of].
  replace (Z.of_N p =? 0) with false by (symmetry; apply Z.eqb_neq; lia).
  rewrite body_bind_ret, body_invoke. reflexivity.
Qed.

Lemma infinite_loop_while_done (fuel : nat) (tun_fd nfds rs ws res : Z) (w : world) :
  res <> 0 -> infinite_loop_while fuel tun_fd nfds rs ws res w = (Some res, w).
Proof.
  intros H. destruct fuel; cbn [infinite_loop_while];
    replace (res =? 0) with false by (symmetry; apply Z.eqb_neq; exact H);
    reflexivity.
Qed.

(** [select] without a timeout does not return 0.  In such an environment
    the loop returns, and it does so after one wait at most: a positive
    count, or an error code, ends it as [res] is no longer 0. *)
Lemma infinite_loop_returns (fuel : nat) (tun_fd buffer_len : Z) (w : world) :
  (forall out,
      oracle w (S (clock w))
             (Select (tun_fd + 1) (FD_SET STDIN_FILENO (FD_SET tun_fd FD_ZERO))
                     (FD_SET STDOUT_FILENO FD_ZERO)) <> Done 0 out) ->
  let run := infinite_loop (S fuel) tun_fd buffer_len w in
  fst run <> None /\ (List.length (waits (emitted w (snd run))) <= 1)%nat.
Proof.
  intros Hsel. cbv zeta. unfold infinite_loop. cbv zeta.
  rewrite body_bind_ask. unfold when.
  destruct (oracle w (clock w) (Calloc buffer_len 1)) as [p o1|e] eqn:Hc;
    cbn [pointer_of].
  2:{ change (0 =? 0) with true. cbv iota. rewrite body_bind_return. cbn [fst snd].
      split; [discriminate|].
      erewrite emitted_app by (read_trace; reflexivity).
      cbn. lia. }
  destruct (Z.eqb_spec (Z.of_N p) 0) as [Hz|Hnz].
  { rewrite body_bind_return. cbn [fst snd].
    split; [discriminate|].
    erewrite emitted_app by (read_trace; reflexivity).
    cbn. lia. }
  rewrite body_bind_ret, body_invoke.
  cbn [infinite_loop_while]. change (0 =? 0) with true. cbv iota.
  unfold loop_iteration. cbv zeta.
  repeat run_rewrite.
  match goal with
  | |- context [oracle w (S (clock w)) ?c] =>
      destruct (oracle w (S (clock w)) c) as [n o2|e] eqn:Hs
  end.
  - assert (Hn : Z.of_N n <> 0).
    { intros H0. apply (Hsel o2). f_equal. lia. }
    repeat run_rewrite. unfold fprintf_stderr.
    match goal with
    | |- context [if ?b then _ else _] => destruct b
    end; repeat run_rewrite; destruct (ready_sets _ _ _);
      try rewrite (infinite_loop_while_done _ _ _ _ _ _ _ Hn); cbn [fst snd];
      (split; [discriminate|]);
      erewrite emitted_app by (read_trace; reflexivity); cbn; lia.
  - repeat run_rewrite.
    destruct (Z.pos e =? EINTR); repeat run_rewrite;
      [ destruct (ready_sets _ _ _); cbn [fst snd];
        (split; [discriminate|]);
        erewrite emitted_app by (read_trace; reflexivity); cbn; lia |].
    unfold fprintf_stderr.
    match goal with
    | |- context [if ?b then _ else _] => destruct b
    end; repeat run_rewrite; destruct (ready_sets _ _ _);
      try rewrite infinite_loop_while_done by discriminate; cbn [fst snd];
      (split; [discriminate|]);
      erewrite emitted_app by (read_trace; reflexivity); cbn; lia.
Qed.

(** C3, on the code.  When the wait reports [n] descriptors ready and the
    flag is seen set, the loop stops after that single wait and returns [n],
    the value [select] gave, not 0. *)
Theorem infinite_loop_interrupt_returns_count (fuel : nat) (tun_fd buffer_len : Z)
    (w : world) (p n : N) (o1 o2 : payload) :
  oracle w (clock w) (Calloc buffer_len 1) = Done p o1 -> p <> 0%N ->
  oracle w (S (clock w))
         (Select (tun_fd + 1) (FD_SET STDIN_FILENO (FD_SET tun_fd FD_ZERO))
                 (FD_SET STDOUT_FILENO FD_ZERO)) = Done n o2 ->
  interrupt_flag w <> 0 \/ signal_at w (clock w) <> None
    \/ signal_at w (S (clock w)) <> None ->
  let run := infinite_loop (S fuel) tun_fd buffer_len w in
  fst run = Some (Z.of_N n) /\ waits (emitted w (snd run)) = [Done n o2].
Proof.
  intros Hc Hp Hs Hflag. cbv zeta.
  rewrite (infinite_loop_unfold fuel tun_fd buffer_len w p o1 Hc Hp).
  unfold loop_iteration. cbv zeta.
  repeat run_rewrite.
  match goal with
  | |- context [negb (?f =? 0)] => replace (negb (f =? 0)) with true
  end.
  - repeat run_rewrite. destruct (ready_sets _ _ _). cbn [fst snd].
    split; [reflexivity|].
    erewrite emitted_app by (read_trace; reflexivity).
    reflexivity.
  - symmetry. apply negb_true_iff, Z.eqb_neq.
    destruct (signal_at w (S (clock w))); [discriminate|].
    destruct (signal_at w (clock w)); [discriminate|].
    destruct Hflag as [H|[H|H]]; congruence.
Qed.

Lemma infinite_loop_interrupt_returns_count_witness :
  let w := boot stdout_ready sigint_in_first_wait in
  let run := infinite_loop 8 3 DEFAULT_BUFFER_LEN w in
  fst run = Some 1
  /\ waits (emitted w (snd run))
     = [Done 1 (Ready FD_ZERO (FD_SET STDOUT_FILENO FD_ZERO))].
Proof.
  apply (infinite_loop_interrupt_returns_count
           7 3 DEFAULT_BUFFER_LEN (boot stdout_ready sigint_in_first_wait)
           4096 1 NoData (Ready FD_ZERO (FD_SET STDOUT_FILENO FD_ZERO))).
  - reflexivity.
  - discriminate.
  - reflexivity.
  - right. right. discriminate.
Defined.

(** C4, as the code has it.  A wait that fails with [EINTR] is not an
    error: the loop returns 0.  It does so at once, after that single wait
    and without a message, whether or not the flag is set. *)
Theorem infinite_loop_eintr_leaves (fuel : nat) (tun_fd buffer_len : Z)
    (w : world) (p : N) (o1 : payload) :
  oracle w (clock w) (Calloc buffer_len 1) = Done p o1 -> p <> 0%N ->
  oracle w (S (clock w))
         (Select (tun_fd + 1) (FD_SET STDIN_FILENO (FD_SET tun_fd FD_ZERO))
                 (FD_SET STDOUT_FILENO FD_ZERO)) = Fail 4 ->
  let run := infinite_loop (S fuel) tun_fd buffer_len w in
  fst run = Some 0
  /\ emitted w (snd run)
     = [EvCall (Calloc buffer_len 1) (Done p o1);
        EvCall (Select (tun_fd + 1) (FD_SET STDIN_FILENO (FD_SET tun_fd FD_ZERO))
                       (FD_SET STDOUT_FILENO FD_ZERO)) (Fail 4)].
Proof.
  intros Hc Hp Hs. cbv zeta.
  rewrite (infinite_loop_unfold fuel tun_fd buffer_len w p o1 Hc Hp).
  unfold loop_iteration. cbv zeta.
  repeat run_rewrite.
  change (Z.pos 4 =? EINTR) with true.
  repeat run_rewrite. destruct (ready_sets _ _ _). cbn [fst snd].
  split; [reflexivity|].
  erewrite emitted_app by (read_trace; reflexivity).
  reflexivity.
Qed.

Lemma infinite_loop_eintr_leaves_witness :
  let w := boot always_eintr no_signal in
  let run := infinite_loop 8 3 DEFAULT_BUFFER_LEN w in
  fst run = Some 0
  /\ emitted w (snd run)
     = [EvCall (Calloc DEFAULT_BUFFER_LEN 1) (Done 4096 NoData);
        EvCall (Select 4 (FD_SET STDIN_FILENO (FD_SET 3 FD_ZERO))
                       (FD_SET STDOUT_FILENO FD_ZERO)) (Fail 4)].
Proof.
  apply (infinite_loop_eintr_leaves 7 3 DEFAULT_BUFFER_LEN
           (boot always_eintr no_signal) 4096 NoData).
  - reflexivity.
  - discriminate.
  - reflexivity.
Defined.

(** C4, as the claim has it, fails.  Every wait would be interrupted and
    the flag is never set; with fuel for more turns the loop has returned
    after one wait instead of waiting again. *)
Lemma infinite_loop_eintr_no_second_wait :
  let w := boot always_eintr no_signal in
  let run := infinite_loop 8 3 DEFAULT_BUFFER_LEN w in
  fst run = Some 0
  /\ interrupt_flag (snd run) = 0
  /\ waits (emitted w (snd run)) = [Fail 4]
  /\ List.length (waits (emitted w (snd run))) <> 2%nat.
Proof.
  cbv zeta. repeat split; try (vm_compute; reflexivity).
  vm_compute. discriminate.
Qed.

(** ** [create_tun] *)

(** Every path of [create_tun].  Either it returns 0, has stored the
    descriptor it opened and has closed nothing; or it returns an error, has
    left the object behind [tun_fd] alone, and has closed what it opened, the
    [close] being its last call. *)
Lemma create_tun_outcome (tun_fd : option Z) (name : option string)
    (name_buffer_len persistent uid gid : Z) (w : world) :
  exists t,
    trace (snd (create_tun tun_fd name name_buffer_len persistent uid gid w))
    = trace w ++ t
    /\ let '(r, cell, _) :=
         fst (create_tun tun_fd name name_buffer_len persistent uid gid w) in
       (r = 0 /\ exists fd, cell = Some (Z.of_N fd)
                            /\ opened t = [Z.of_N fd] /\ closed t = [])
       \/ (r <> 0 /\ cell = tun_fd /\ closed t = opened t
           /\ forall fd, opened t = [fd] -> last (calls t) Geteuid = Close fd).
Proof.
  destruct tun_fd as [cell|].
  2:{ exists []. rewrite app_nil_r. split; [reflexivity|].
      right. repeat split; try discriminate. }
  unfold create_tun. run.
  all: eexists; split; [read_trace; reflexivity|].
  all: first
         [ left; split; [reflexivity|]; eexists; repeat split; reflexivity
         | right; split; [discriminate|];
           repeat split; intros; try reflexivity; try discriminate;
           match goal with
           | H : opened _ = [_] |- _ => injection H as <-; reflexivity
           end ].
Qed.

(** C5. When [create_tun] returns an error after it has opened the device
    as [fd], it has closed [fd], once, as its last call, and it has not
    touched the object behind [tun_fd]. *)
Theorem create_tun_failure_closes_device (tun_fd : option Z) (name : option string)
    (name_buffer_len persistent uid gid : Z) (w : world) (fd : Z) :
  let run := create_tun tun_fd name name_buffer_len persistent uid gid w in
  let t := emitted w (snd run) in
  fst (fst (fst run)) <> 0 ->
  opened t = [fd] ->
  closed t = [fd]
  /\ last (calls t) Geteuid = Close fd
  /\ snd (fst (fst run)) = tun_fd.
Proof.
  cbv zeta.
  destruct (create_tun_outcome tun_fd name name_buffer_len persistent uid gid w)
    as (t & E & H).
  rewrite (emitted_app _ _ _ E).
  destruct (fst (create_tun tun_fd name name_buffer_len persistent uid gid w))
    as [[r cell] name'].
  cbn [fst snd]. intros Hr Ho.
  destruct H as [[H0 _]|(_ & Hcell & Hclosed & Hlast)]; [contradiction|].
  rewrite Hclosed, Ho. auto.
Qed.

Lemma create_tun_failure_closes_device_witness :
  let run := create_tun (Some 0) (Some "tun7"%string) IFNAMSIZ 0 1000 1000
                        (boot attach_refused no_signal) in
  let t := emitted (boot attach_refused no_signal) (snd run) in
  closed t = [3]
  /\ last (calls t) Geteuid = Close 3
  /\ snd (fst (fst run)) = Some 0.
Proof.
  apply (create_tun_failure_closes_device
           (Some 0) (Some "tun7"%string) IFNAMSIZ 0 1000 1000
           (boot attach_refused no_signal) 3).
  - vm_compute. discriminate.
  - vm_compute. reflexivity.
Defined.

(** ** The flags of the create-or-attach request *)

Lemma emits_weaken {A} (P Q : event -> bool) (m : M A) :
  (forall e, P e = true -> Q e = true) -> emitsM P m -> emitsM Q m.
Proof.
  intros HPQ Hm w. destruct (Hm w) as (t & E & F).
  exists t. split; [exact E|]. exact (forallb_weaken P Q t HPQ F).
Qed.

Lemma print_usage_quiet : emitsM is_quiet print_usage.
Proof. unfold print_usage. emits. Qed.

Lemma get_uid_by_name_quiet (name : option string) (id : option Z) :
  emitsM is_quiet (get_uid_by_name name id).
Proof. unfold get_uid_by_name. emits. Qed.

Lemma get_gid_by_name_quiet (name : option string) (id : option Z) :
  emitsM is_quiet (get_gid_by_name name id).
Proof. unfold get_gid_by_name. emits. Qed.

Lemma switch_quiet (o : opt) (l : locals) : emitsM is_quiet (switch o l).
Proof.
  unfold switch, switch_default. emits;
    first [ apply print_usage_quiet
          | apply get_uid_by_name_quiet
          | apply get_gid_by_name_quiet ].
Qed.

Lemma option_loop_quiet (cmdline : list opt) :
  forall l, emitsM is_quiet (option_loop cmdline l).
Proof.
  induction cmdline as [|o rest IH]; intros l w; cbn [option_loop].
  - exists []. rewrite app_nil_r. auto.
  - destruct (switch_quiet o l w) as (t1 & E1 & F1).
    destruct (switch o l w) as [l' w1]. cbn [snd] in E1.
    destruct (res l' =? 0).
    + destruct (IH l' w1) as (t2 & E2 & F2).
      exists (t1 ++ t2). rewrite E2, E1, app_assoc, forallb_app, F1, F2. auto.
    + exists t1. auto.
Qed.

Lemma close_tun_attaches_nothing (fd : Z) : emitsM attach_is_default (close_tun fd).
Proof. unfold close_tun. emits. Qed.

Lemma cleanup_attaches_nothing (tun_fd r : Z) : emitsM attach_is_default (cleanup tun_fd r).
Proof. unfold cleanup. emits. apply close_tun_attaches_nothing. Qed.

Lemma create_tun_attaches_default (tun_fd : option Z) (name : option string)
    (name_buffer_len persistent uid gid : Z) :
  emitsM attach_is_default (create_tun tun_fd name name_buffer_len persistent uid gid).
Proof. unfold create_tun. emits. Qed.

Lemma main_attaches_default (cmdline : list opt) (indeterminate : Z) :
  emitsM attach_is_default (main cmdline indeterminate).
Proof.
  unfold main. emits;
    first [ apply cleanup_attaches_nothing
          | apply create_tun_attaches_default
          | apply emits_weaken with (P := is_quiet);
            [ intros [[]| | | |]; cbn; congruence | apply option_loop_quiet ] ].
Qed.

Lemma attach_flags_default (t : list event) :
  forallb attach_is_default t = true ->
  Forall (fun flags => flags = Z.lor IFF_TUN IFF_NO_PI) (attach_flags t).
Proof.
  induction t as [|e t IH]; cbn [forallb]; [constructor|].
  intros H. apply andb_true_iff in H. destruct H as [He Ht].
  specialize (IH Ht).
  destruct e as [[path fl|fd|fd [nm fl|a|u|g]|fd|fd fl|n r1 w1|fd n|fd d|n sz|sg|nm|nm| |] r
                | | | |]; try exact IH.
  constructor; [|exact IH].
  apply Z.eqb_eq. exact He.
Qed.

(** C2, on the code.  Whatever the command line, every create-or-attach
    request of [main] asks for TUN without packet information: the flags
    that the options -e and -f leave in [main]'s own [ifr] never reach
    [create_tun]. *)
Theorem main_attach_request_is_fixed (cmdline : list opt) (indeterminate : Z) (w : world) :
  Forall (fun flags => flags = Z.lor IFF_TUN IFF_NO_PI)
         (attach_flags (emitted w (snd (main cmdline indeterminate w)))).
Proof.
  destruct (main_attaches_default cmdline indeterminate w) as (t & E & F).
  rewrite (emitted_app _ _ _ E). apply attach_flags_default, F.
Qed.

(** With -e and -f the option loop leaves TAP with packet information in
    [ifr.ifr_flags]; the request that follows carries TUN without it. *)
Lemma main_ethernet_option_is_lost :
  let w := boot all_granted no_signal in
  let cmdline := [mkOpt "e" EmptyString; mkOpt "f" EmptyString] in
  ifr_flags (fst (option_loop cmdline (initial_locals 1000 1000) w)) = IFF_TAP
  /\ fst (main cmdline 0 w) = 0
  /\ attach_flags (emitted w (snd (main cmdline 0 w))) = [Z.lor IFF_TUN IFF_NO_PI].
Proof. cbv zeta. repeat split; vm_compute; reflexivity. Qed.

(** ** [main]: acquiring and releasing *)

Lemma quiet_collects_nothing (t : list event) :
  forallb is_quiet t = true ->
  acquisitions t = [] /\ releases t = [] /\ closed t = [] /\ open_attempts t = [].
Proof.
  intros F. repeat split;
    (apply collect_none with (P := is_quiet); [|exact F]);
    intros [[]| | | |]; cbn; congruence.
Qed.

Lemma create_tun_records_nothing (tun_fd : option Z) (name : option string)
    (name_buffer_len persistent uid gid : Z) :
  emitsM (fun e => negb (is_record e))
         (create_tun tun_fd name name_buffer_len persistent uid gid).
Proof. unfold create_tun. emits. Qed.

Lemma unrecorded_collects_nothing (t : list event) :
  forallb (fun e => negb (is_record e)) t = true ->
  acquisitions t = [] /\ releases t = [].
Proof.
  intros F. split;
    (apply collect_none with (P := fun e => negb (is_record e)); [|exact F]);
    intros [| | | |]; cbn; congruence.
Qed.

(** The [cleanup:] label: [close_tun] is entered exactly when [tun_fd] is
    not 0, and it closes the descriptor exactly when it is positive. *)
Lemma cleanup_outcome (tun_fd r : Z) (w : world) :
  exists t,
    trace (snd (cleanup tun_fd r w)) = trace w ++ t
    /\ fst (cleanup tun_fd r w) = r
    /\ acquisitions t = []
    /\ open_attempts t = []
    /\ releases t = (if tun_fd =? 0 then [] else [tun_fd])
    /\ closed t = (if 0 <? tun_fd then [tun_fd] else []).
Proof.
  unfold cleanup, close_tun.
  destruct (Z.eqb_spec tun_fd 0) as [->|Hne].
  - exists []. rewrite app_nil_r. repeat split.
  - destruct (Z.ltb_spec 0 tun_fd) as [Hpos|Hneg].
    + replace (tun_fd <=? 0) with false by (symmetry; apply Z.leb_gt; lia).
      run; (eexists; split; [read_trace; reflexivity|]); repeat split.
    + replace (tun_fd <=? 0) with true by (symmetry; apply Z.leb_le; lia).
      run; (eexists; split; [read_trace; reflexivity|]); repeat split.
Qed.

(** C6, as the code has it.  In a run of [main] that reaches [create_tun],
    [create_tun] comes back once, and [close_tun] is not entered before.
    After a success that stored a descriptor other than 0, [close_tun] is
    entered once, with that descriptor, and closes it.  After a failure
    [tun_fd] still holds 0 and [close_tun] is not entered; nor is it after a
    success that stored descriptor 0. *)
Theorem main_release_follows_acquire (cmdline : list opt) (indeterminate : Z) (w : world) :
  let t := emitted w (snd (main cmdline indeterminate w)) in
  acquisitions t = []
  \/ exists r fd t1 t2,
       t = t1 ++ EvCreateTunReturned r fd :: t2
       /\ acquisitions t1 = [] /\ releases t1 = []
       /\ acquisitions t2 = []
       /\ releases t2 = (if (r =? 0) && negb (fd =? 0) then [fd] else [])
       /\ closed t2 = releases t2
       /\ (r <> 0 -> fd = 0).
Proof.
  cbv zeta. unfold main. cbv zeta.
  rewrite !body_bind_syscall, body_bind_invoke.
  match goal with
  | |- context [option_loop cmdline ?l0 ?w0] =>
      set (w2 := w0);
      destruct (option_loop_quiet cmdline l0 w2) as (t1 & E1 & F1);
      destruct (option_loop cmdline l0 w2) as [l w3]
  end.
  cbn [fst snd] in *.
  destruct (quiet_collects_nothing t1 F1) as (A1 & R1 & C1 & O1).
  assert (E2 : exists t0, trace w2 = trace w ++ t0 /\ forallb is_quiet t0 = true).
  { eexists. split; [subst w2; read_trace; reflexivity|reflexivity]. }
  destruct E2 as (t0 & E2 & F0).
  destruct (quiet_collects_nothing t0 F0) as (A0 & R0 & C0 & O0).
  clearbody w2.
  unfold acquisitions, releases, closed in *.
  unfold when.
  destruct (res l =? 0); cbn [negb].
  - right. rewrite body_bind_ret, body_bind_invoke.
    destruct (create_tun_outcome (Some 0) (Some (ifr_name l)) IFNAMSIZ
                (persistent l) (uid l) (gid l) w3) as (t2 & E3 & H3).
    destruct (create_tun_records_nothing (Some 0) (Some (ifr_name l)) IFNAMSIZ
                (persistent l) (uid l) (gid l) w3) as (t2' & E3' & F3).
    rewrite E3 in E3'. apply app_inv_head in E3'. subst t2'.
    destruct (unrecorded_collects_nothing t2 F3) as (A2 & R2).
    unfold acquisitions, releases in A2, R2.
    destruct (create_tun (Some 0) (Some (ifr_name l)) IFNAMSIZ
                (persistent l) (uid l) (gid l) w3) as [[[r cell] nm] w4].
    cbn [fst snd] in *.
    rewrite body_bind_emit.
    destruct H3 as [(-> & fd & -> & Ho & Hc) | (Hr & -> & Hc & _)].
    + cbn [deref]. change (negb (0 =? 0)) with false. unfold fprintf_stderr.
      cbn [negb]. rewrite body_bind_ret, body_bind_emit, body_invoke.
      match goal with
      | |- context [cleanup ?f ?r ?w0] =>
          destruct (cleanup_outcome f r w0) as (t3 & E4 & _ & A3 & _ & R3 & C3)
      end.
      unfold acquisitions, releases, closed in *.
      cbn [log trace] in E4. rewrite E3, E1, E2 in E4.
      exists 0, (Z.of_N fd), (t0 ++ t1 ++ t2),
        (EvStderr (line "Listening on %s") :: t3).
      split.
      { erewrite emitted_app by (rewrite E4; repeat rewrite <- app_assoc; reflexivity).
        repeat rewrite <- app_assoc. reflexivity. }
      rewrite !collect_app, A0, A1, A2, R0, R1, R2.
      cbn [collect app]. rewrite A3, R3, C3.
      change (0 =? 0) with true. cbn [andb].
      destruct (Z.eqb_spec (Z.of_N fd) 0) as [Hz|Hnz]; cbn [negb].
      * rewrite Hz. repeat split; try (intros H; contradiction).
      * replace (0 <? Z.of_N fd) with true by (symmetry; apply Z.ltb_lt; lia).
        repeat split; try (intros H; contradiction).
    + cbn [deref].
      replace (r =? 0) with false by (symmetry; apply Z.eqb_neq; exact Hr).
      cbn [negb andb].
      rewrite body_bind_bind, body_bind_invoke, body_bind_return.
      match goal with
      | |- context [cleanup ?f ?r ?w0] =>
          destruct (cleanup_outcome f r w0) as (t3 & E4 & _ & A3 & _ & R3 & C3)
      end.
      unfold acquisitions, releases, closed in *.
      cbn [log trace] in E4. rewrite E3, E1, E2 in E4.
      exists r, 0, (t0 ++ t1 ++ t2), t3.
      split.
      { cbn [snd].
        erewrite emitted_app by (rewrite E4; repeat rewrite <- app_assoc; reflexivity).
        repeat rewrite <- app_assoc. reflexivity. }
      rewrite !collect_app, A0, A1, A2, R0, R1, R2.
      cbn [collect app]. rewrite A3, R3, C3.
      change (0 =? 0) with true. change (0 <? 0) with false.
      cbn [negb]. rewrite andb_false_r.
      repeat split.
  - left. rewrite body_bind_bind, body_bind_invoke, body_bind_return. cbn [snd].
    match goal with
    | |- context [cleanup ?f ?r ?w0] =>
        destruct (cleanup_outcome f r w0) as (t3 & E4 & _ & A3 & _ & R3 & C3)
    end.
    unfold acquisitions in A3.
    rewrite E1, E2 in E4.
    erewrite emitted_app by (rewrite E4; repeat rewrite <- app_assoc; reflexivity).
    rewrite !collect_app, A0, A1, A3. reflexivity.
Qed.

(** The second case of the theorem is the usual one: with every call
    granted the device is opened as descriptor 3, recorded, and released
    once. *)
Lemma main_releases_what_it_acquired :
  let w := boot all_granted no_signal in
  let t := emitted w (snd (main [] 0 w)) in
  fst (main [] 0 w) = 0
  /\ acquisitions t = [(0, 3)] /\ releases t = [3]
  /\ opened t = [3] /\ closed t = [3].
Proof. cbv zeta. repeat split; vm_compute; reflexivity. Qed.

(** C6, as the claim has it, fails.  When the device opens as descriptor 0,
    [create_tun] succeeds and stores 0; [main] takes 0 for a variable that
    was never assigned, does not enter [close_tun], and the descriptor stays
    open. *)
Lemma main_descriptor_zero_not_released :
  let w := boot descriptor_zero no_signal in
  let t := emitted w (snd (main [] 0 w)) in
  fst (main [] 0 w) = 0
  /\ acquisitions t = [(0, 0)]
  /\ opened t = [0]
  /\ releases t = []
  /\ closed t = [].
Proof. cbv zeta. repeat split; vm_compute; reflexivity. Qed.

(** A run that never reaches [create_tun] reads [tun_fd] at [cleanup:]
    without its initializer having run.  If the variable happens to hold 7,
    [close_tun] is entered with 7 and closes a descriptor the program never
    opened. *)
Lemma main_cleanup_reads_indeterminate :
  let w := boot all_granted no_signal in
  let t := emitted w (snd (main [mkOpt "b" "0"] 7 w)) in
  fst (main [mkOpt "b" "0"] 7 w) = EINVAL
  /\ acquisitions t = []
  /\ opened t = []
  /\ releases t = [7]
  /\ closed t = [7].
Proof. cbv zeta. repeat split; vm_compute; reflexivity. Qed.

(** ** The buffer size option *)

Lemma switch_buffer_positive (s : string) (l : locals) (w : world) :
  0 < to_int (st_value (strtol10 s)) ->
  exists t,
    trace (snd (switch (mkOpt "b" s) l w)) = trace w ++ t
    /\ forallb is_quiet t = true
    /\ res (fst (switch (mkOpt "b" s) l w)) = 1
    /\ buffer_len (fst (switch (mkOpt "b" s) l w)) = to_int (st_value (strtol10 s)).
Proof.
  intros Hpos. unfold switch.
  change (is_chr (mkOpt "b" s) "v") with false.
  change (is_chr (mkOpt "b" s) "i") with false.
  change (is_chr (mkOpt "b" s) "e") with false.
  change (is_chr (mkOpt "b" s) "f") with false.
  change (is_chr (mkOpt "b" s) "p") with false.
  change (is_chr (mkOpt "b" s) "u") with false.
  change (is_chr (mkOpt "b" s) "g") with false.
  change (is_chr (mkOpt "b" s) "b") with true.
  cbv iota. cbn [optarg]. unfold strtol.
  rewrite body_bind_bind.
  assert (Hle : (to_int (st_value (strtol10 s)) <=? 0) = false)
    by (apply Z.leb_gt; exact Hpos).
  unfold when, switch_default, print_usage, fprintf_stderr.
  destruct (st_range (strtol10 s)); repeat run_rewrite;
    cbn [buffer_len with_buffer_len]; rewrite Hle; repeat run_rewrite;
    (eexists; split; [read_trace; reflexivity|]); repeat split.
Qed.

Lemma switch_buffer_not_positive (s : string) (l : locals) (w : world) :
  to_int (st_value (strtol10 s)) <= 0 ->
  exists t,
    trace (snd (switch (mkOpt "b" s) l w)) = trace w ++ t
    /\ forallb is_quiet t = true
    /\ res (fst (switch (mkOpt "b" s) l w)) = EINVAL.
Proof.
  intros Hneg. unfold switch.
  change (is_chr (mkOpt "b" s) "v") with false.
  change (is_chr (mkOpt "b" s) "i") with false.
  change (is_chr (mkOpt "b" s) "e") with false.
  change (is_chr (mkOpt "b" s) "f") with false.
  change (is_chr (mkOpt "b" s) "p") with false.
  change (is_chr (mkOpt "b" s) "u") with false.
  change (is_chr (mkOpt "b" s) "g") with false.
  change (is_chr (mkOpt "b" s) "b") with true.
  cbv iota. cbn [optarg]. unfold strtol.
  rewrite body_bind_bind.
  assert (Hle : (to_int (st_value (strtol10 s)) <=? 0) = true)
    by (apply Z.leb_le; exact Hneg).
  unfold when, fprintf_stderr.
  destruct (st_range (strtol10 s)); repeat run_rewrite;
    cbn [buffer_len with_buffer_len]; rewrite Hle; repeat run_rewrite;
    (eexists; split; [read_trace; reflexivity|]); repeat split.
Qed.

(** A run of [main] whose first option sets [res] stops parsing there and
    goes to [cleanup:] with that value: the device is not opened and
    [create_tun] is not reached. *)
Lemma main_first_option_fails (o : opt) (rest : list opt) (indeterminate : Z) (w : world)
    (code : Z) :
  code <> 0 ->
  (forall l w0, exists t,
      trace (snd (switch o l w0)) = trace w0 ++ t
      /\ forallb is_quiet t = true
      /\ res (fst (switch o l w0)) = code) ->
  let run := main (o :: rest) indeterminate w in
  fst run = code
  /\ open_attempts (emitted w (snd run)) = []
  /\ acquisitions (emitted w (snd run)) = [].
Proof.
  intros Hcode Hswitch. cbv zeta. unfold main. cbv zeta.
  rewrite !body_bind_syscall, body_bind_invoke.
  cbn [option_loop].
  match goal with
  | |- context [switch o ?l0 ?w0] =>
      set (w2 := w0);
      destruct (Hswitch l0 w2) as (t1 & E1 & F1 & Hres);
      destruct (switch o l0 w2) as [l w3]
  end.
  cbn [fst snd] in *.
  assert (E2 : exists t0, trace w2 = trace w ++ t0 /\ forallb is_quiet t0 = true).
  { eexists. split; [subst w2; read_trace; reflexivity|reflexivity]. }
  destruct E2 as (t0 & E2 & F0). clearbody w2.
  destruct (quiet_collects_nothing t0 F0) as (A0 & _ & _ & O0).
  destruct (quiet_collects_nothing t1 F1) as (A1 & _ & _ & O1).
  rewrite Hres.
  replace (code =? 0) with false by (symmetry; apply Z.eqb_neq; exact Hcode).
  cbn [fst snd]. rewrite Hres.
  replace (code =? 0) with false by (symmetry; apply Z.eqb_neq; exact Hcode).
  unfold when. cbn [negb].
  rewrite body_bind_bind, body_bind_invoke, body_bind_return. cbn [fst snd].
  destruct (cleanup_outcome indeterminate code w3) as (t3 & E4 & Hr & A3 & O3 & _).
  rewrite E1, E2 in E4.
  erewrite emitted_app by (rewrite E4; repeat rewrite <- app_assoc; reflexivity).
  unfold open_attempts, acquisitions in *.
  rewrite !collect_app, A0, A1, A3, O0, O1, O3. auto.
Qed.

(** C7, on the code.  A positive buffer size as first option is stored,
    and then the case falls into [default:]: the usage text is printed, [res]
    becomes 1, and [main] returns 1 without opening the device or reaching
    [create_tun]. *)
Theorem main_positive_buffer_exits (s : string) (rest : list opt) (indeterminate : Z)
    (w : world) :
  0 < to_int (st_value (strtol10 s)) ->
  let run := main (mkOpt "b" s :: rest) indeterminate w in
  fst run = 1
  /\ open_attempts (emitted w (snd run)) = []
  /\ acquisitions (emitted w (snd run)) = [].
Proof.
  intros Hpos. apply main_first_option_fails; [discriminate|].
  intros l w0. destruct (switch_buffer_positive s l w0 Hpos) as (t & E & F & Hres & _).
  exists t. auto.
Qed.

Lemma main_positive_buffer_exits_witness :
  let run := main [mkOpt "b" "1024"] 0 (boot all_granted no_signal) in
  fst run = 1
  /\ open_attempts (emitted (boot all_granted no_signal) (snd run)) = []
  /\ acquisitions (emitted (boot all_granted no_signal) (snd run)) = [].
Proof.
  apply (main_positive_buffer_exits "1024" [] 0 (boot all_granted no_signal)).
  vm_compute. reflexivity.
Defined.

(** The other half of C7 holds in this iteration: a buffer size that is not
    positive makes [main] return [EINVAL] without opening the device. *)
Lemma main_invalid_buffer_exits (s : string) (rest : list opt) (indeterminate : Z)
    (w : world) :
  to_int (st_value (strtol10 s)) <= 0 ->
  let run := main (mkOpt "b" s :: rest) indeterminate w in
  fst run = EINVAL
  /\ open_attempts (emitted w (snd run)) = []
  /\ acquisitions (emitted w (snd run)) = [].
Proof.
  intros Hneg. apply main_first_option_fails; [discriminate|].
  intros l w0. destruct (switch_buffer_not_positive s l w0 Hneg) as (t & E & F & Hres).
  exists t. auto.
Qed.

(** In the first document of [src/main.c] it is the other way round: a
    positive size lets provisioning go on, and so does an invalid one, whose
    [EINVAL] is replaced by the result of [create_tun]. *)
Lemma MainC_main_buffer_option :
  let w := boot all_granted no_signal in
  (fst (MainC.main [mkOpt "b" "1024"] w) = 0
   /\ opened (emitted w (snd (MainC.main [mkOpt "b" "1024"] w))) = [3])
  /\ (fst (MainC.main [mkOpt "b" "0"] w) = 0
      /\ opened (emitted w (snd (MainC.main [mkOpt "b" "0"] w))) = [3]).
Proof. cbv zeta. repeat split; vm_compute; reflexivity. Qed.

(** ** Owner strings *)















Lemma decimal_not_other (s : string) : all_digits s = true -> has_other s = false.
Proof.
  induction s as [|c s IH]; cbn [all_digits has_other]; [reflexivity|].
  intros H. apply andb_true_iff in H. destruct H as [Hc Hs].
  rewrite Hc, (IH Hs). reflexivity.
Qed.

(** [get_uid_by_name] in terms of what [strtol] returns. *)
Lemma get_uid_by_name_cases (name : string) (id : Z) (w : world) :
  let r := strtol10 name in
  let u := get_uid_by_name (Some name) (Some id) w in
  if isnul (char_at name (st_end r)) && negb (st_range r) then
    calls (emitted w (snd u)) = []
    /\ fst u = if (st_value r <? 0) || (UINT_MAX <? st_value r)
               then (ERANGE, Some id)
               else (0, Some (to_id (st_value r)))
  else
    calls (emitted w (snd u)) = [Getpwnam name]
    /\ fst u = match entry_id (oracle w (clock w) (Getpwnam name)) with
               | Some pw_uid => (0, Some pw_uid)
               | None => (EINVAL, Some id)
               end.
Proof.
  cbv zeta. unfold get_uid_by_name, strtol, when, fprintf_stderr.
  rewrite body_bind_put_errno, body_bind_bind.
  destruct (st_range (strtol10 name)); repeat run_rewrite;
    destruct (isnul (char_at name (st_end (strtol10 name))));
    cbn [andb negb];
    try change (ERANGE =? 0) with false; try change (0 =? 0) with true;
    cbn [andb]; repeat run_rewrite.
  all: try destruct ((st_value (strtol10 name) <? 0)
                     || (UINT_MAX <? st_value (strtol10 name)));
    repeat run_rewrite.
  all: try (destruct (oracle w (clock w) (Getpwnam name)) eqn:E;
            cbn [entry_id]; repeat run_rewrite).
  all: split;
    [ erewrite emitted_app
        by (read_trace; first [reflexivity | symmetry; apply app_nil_r]);
      reflexivity
    | reflexivity ].
Qed.

Lemma get_gid_by_name_cases (name : string) (id : Z) (w : world) :
  let r := strtol10 name in
  let g := get_gid_by_name (Some name) (Some id) w in
  if isnul (char_at name (st_end r)) && negb (st_range r) then
    calls (emitted w (snd g)) = []
    /\ fst g = if (st_value r <? 0) || (UINT_MAX <? st_value r)
               then (ERANGE, Some id)
               else (0, Some (to_id (st_value r)))
  else
    calls (emitted w (snd g)) = [Getgrnam name]
    /\ fst g = match entry_id (oracle w (clock w) (Getgrnam name)) with
               | Some gr_gid => (0, Some gr_gid)
               | None => (EINVAL, Some id)
               end.
Proof.
  cbv zeta. unfold get_gid_by_name, strtol, when, fprintf_stderr.
  rewrite body_bind_put_errno, body_bind_bind.
  destruct (st_range (strtol10 name)); repeat run_rewrite;
    destruct (isnul (char_at name (st_end (strtol10 name))));
    cbn [andb negb];
    try change (ERANGE =? 0) with false; try change (0 =? 0) with true;
    cbn [andb]; repeat run_rewrite.
  all: try destruct ((st_value (strtol10 name) <? 0)
                     || (UINT_MAX <? st_value (strtol10 name)));
    repeat run_rewrite.
  all: try (destruct (oracle w (clock w) (Getgrnam name)) eqn:E;
            cbn [entry_id]; repeat run_rewrite).
  all: split;
    [ erewrite emitted_app
        by (read_trace; first [reflexivity | symmetry; apply app_nil_r]);
      reflexivity
    | reflexivity ].
Qed.




(** Strings the claim counts with the names are taken as numbers: the
    empty string is the id 0, a sign or leading white space is accepted. *)
Lemma get_uid_by_name_lenient :
  let w := boot empty_directory no_signal in
  fst (get_uid_by_name (Some EmptyString) (Some 5) w) = (0, Some 0)
  /\ fst (get_uid_by_name (Some "+7"%string) (Some 5) w) = (0, Some 7)
  /\ fst (get_uid_by_name (Some " 7"%string) (Some 5) w) = (0, Some 7)
  /\ fst (get_uid_by_name (Some "-7"%string) (Some 5) w) = (ERANGE, Some 5).
Proof. cbv zeta. repeat split; vm_compute; reflexivity. Qed.

(** The kinds on examples. *)
Lemma classify_owner_examples :
  classify_owner "0" = Literal 0
  /\ classify_owner "4294967295" = Literal 4294967295
  /\ classify_owner "4294967296" = OutOfRange
  /\ classify_owner "9223372036854775807" = OutOfRange
  /\ classify_owner "9223372036854775808" = ByDirectory
  /\ classify_owner "daemon" = ByDirectory
  /\ classify_owner "42nd" = ByDirectory
  /\ classify_owner "+7" = Unclassified
  /\ classify_owner EmptyString = Unclassified.
Proof. repeat split; vm_compute; reflexivity. Qed.

(** * Further properties *)

(** ** The readiness loop: its other ways out *)

(** X1. When [calloc] returns a null pointer, [infinite_loop] returns
    [ENOMEM] and has not waited at all. *)
Theorem infinite_loop_out_of_memory (fuel : nat) (tun_fd buffer_len : Z) (w : world) :
  pointer_of (oracle w (clock w) (Calloc buffer_len 1)) = 0 ->
  let run := infinite_loop fuel tun_fd buffer_len w in
  fst run = Some ENOMEM
  /\ calls (emitted w (snd run)) = [Calloc buffer_len 1].
Proof.
  intros Hnull. cbv zeta. unfold infinite_loop. cbv zeta.
  rewrite body_bind_ask. unfold when. rewrite Hnull.
  change (0 =? 0) with true. cbv iota. rewrite body_bind_return. cbn [fst snd].
  split; [reflexivity|].
  erewrite emitted_app by (read_trace; reflexivity). reflexivity.
Qed.

Lemma infinite_loop_out_of_memory_witness :
  let run := infinite_loop 8 3 DEFAULT_BUFFER_LEN (boot no_memory no_signal) in
  fst run = Some ENOMEM
  /\ calls (emitted (boot no_memory no_signal) (snd run))
     = [Calloc DEFAULT_BUFFER_LEN 1].
Proof.
  apply (infinite_loop_out_of_memory 8 3 DEFAULT_BUFFER_LEN (boot no_memory no_signal)).
  reflexivity.
Defined.



(** X3. When the wait reports [n] descriptors ready, [n] not 0, and no
    signal has come, the loop ends all the same: [res] holds [n], the test
    of the [while] fails, and [n] is returned after this single wait,
    without a message. *)
Theorem infinite_loop_ready_ends_loop (fuel : nat) (tun_fd buffer_len : Z) (w : world)
    (p n : N) (o1 o2 : payload) :
  oracle w (clock w) (Calloc buffer_len 1) = Done p o1 -> p <> 0%N ->
  oracle w (S (clock w))
         (Select (tun_fd + 1) (FD_SET STDIN_FILENO (FD_SET tun_fd FD_ZERO))
                 (FD_SET STDOUT_FILENO FD_ZERO)) = Done n o2 ->
  n <> 0%N ->
  interrupt_flag w = 0 -> signal_at w (clock w) = None ->
  signal_at w (S (clock w)) = None ->
  let run := infinite_loop (S fuel) tun_fd buffer_len w in
  fst run = Some (Z.of_N n)
  /\ emitted w (snd run)
     = [EvCall (Calloc buffer_len 1) (Done p o1);
        EvCall (Select (tun_fd + 1) (FD_SET STDIN_FILENO (FD_SET tun_fd FD_ZERO))
                       (FD_SET STDOUT_FILENO FD_ZERO)) (Done n o2)].
Proof.
  intros Hc Hp Hs Hn Hf H1 H2. cbv zeta.
  rewrite (infinite_loop_unfold fuel tun_fd buffer_len w p o1 Hc Hp).
  unfold loop_iteration. cbv zeta.
  repeat run_rewrite. rewrite H1, H2, Hf.
  change (negb (0 =? 0)) with false. cbv iota.
  repeat run_rewrite. destruct (ready_sets _ _ _).
  rewrite infinite_loop_while_done by lia. cbn [fst snd].
  split; [reflexivity|].
  erewrite emitted_app by (read_trace; reflexivity). reflexivity.
Qed.

Lemma infinite_loop_ready_ends_loop_witness :
  let w := boot stdin_holds_A no_signal in
  let run := infinite_loop 8 3 DEFAULT_BUFFER_LEN w in
  fst run = Some 2
  /\ emitted w (snd run)
     = [EvCall (Calloc DEFAULT_BUFFER_LEN 1) (Done 4096 NoData);
        EvCall (Select 4 (FD_SET STDIN_FILENO (FD_SET 3 FD_ZERO))
                       (FD_SET STDOUT_FILENO FD_ZERO))
               (Done 2 (Ready (FD_SET STDIN_FILENO FD_ZERO)
                              (FD_SET STDOUT_FILENO FD_ZERO)))].
Proof.
  apply (infinite_loop_ready_ends_loop 7 3 DEFAULT_BUFFER_LEN
           (boot stdin_holds_A no_signal) 4096 2 NoData
           (Ready (FD_SET STDIN_FILENO FD_ZERO) (FD_SET STDOUT_FILENO FD_ZERO)));
    first [reflexivity | discriminate].
Defined.

(** X4. [select] without a timeout does not return 0.  When the first
    wait does not, [infinite_loop] returns, and it has waited once at most:
    as it stands, the loop never takes a second turn. *)
Theorem infinite_loop_one_wait_at_most (fuel : nat) (tun_fd buffer_len : Z) (w : world) :
  (forall out,
      oracle w (S (clock w))
             (Select (tun_fd + 1) (FD_SET STDIN_FILENO (FD_SET tun_fd FD_ZERO))
                     (FD_SET STDOUT_FILENO FD_ZERO)) <> Done 0 out) ->
  let run := infinite_loop (S fuel) tun_fd buffer_len w in
  fst run <> None /\ (List.length (waits (emitted w (snd run))) <= 1)%nat.
Proof. exact (infinite_loop_returns fuel tun_fd buffer_len w). Qed.

Lemma infinite_loop_one_wait_at_most_witness :
  let w := boot stdout_ready no_signal in
  let run := infinite_loop 8 3 DEFAULT_BUFFER_LEN w in
  fst run <> None /\ (List.length (waits (emitted w (snd run))) <= 1)%nat.
Proof.
  apply (infinite_loop_one_wait_at_most 7 3 DEFAULT_BUFFER_LEN
           (boot stdout_ready no_signal)).
  intros out. discriminate.
Defined.

(** ** The readiness loop: what it polls *)






(** ** The flag is only ever set *)

Lemma flag_kept_refl (w : world) : flag_kept w w.
Proof. left. reflexivity. Qed.

Lemma flag_kept_trans (w1 w2 w3 : world) :
  flag_kept w1 w2 -> flag_kept w2 w3 -> flag_kept w1 w3.
Proof. unfold flag_kept. intros [H1|H1] [H2|H2]; rewrite H2; auto. Qed.

Lemma keeps_flag_ret {R A} (a : A) : keeps_flagC (@ret R A a).
Proof. intros w. apply flag_kept_refl. Qed.

Lemma keeps_flag_return {R A} (r : R) : keeps_flagC (@return_ R A r).
Proof. intros w. apply flag_kept_refl. Qed.

Lemma keeps_flag_bind {R A B} (m : C R A) (k : A -> C R B) :
  keeps_flagC m -> (forall a, keeps_flagC (k a)) -> keeps_flagC (bind m k).
Proof.
  intros Hm Hk w. unfold bind. specialize (Hm w).
  destruct (m w) as [[a|r] w1]; cbn [snd] in *; [|exact Hm].
  exact (flag_kept_trans _ _ _ Hm (Hk a w1)).
Qed.

Lemma keeps_flag_body {R} (m : C R R) : keeps_flagC m -> keeps_flagM (body m).
Proof.
  intros Hm w. unfold body. specialize (Hm w).
  destruct (m w) as [[a|r] w1]; exact Hm.
Qed.

Lemma keeps_flag_invoke {R A} (f : M A) : keeps_flagM f -> keeps_flagC (@invoke R A f).
Proof.
  intros Hf w. unfold invoke. specialize (Hf w). destruct (f w). exact Hf.
Qed.

Lemma keeps_flag_when {R} (b : bool) (m : C R unit) :
  keeps_flagC m -> keeps_flagC (when b m).
Proof. intros Hm. destruct b; [exact Hm|apply keeps_flag_ret]. Qed.

Lemma keeps_flag_emit {R} (e : event) : keeps_flagC (@emit R e).
Proof. intros w. left. reflexivity. Qed.

Lemma keeps_flag_ask {R} (c : call) : keeps_flagC (@ask R c).
Proof.
  intros w. rewrite ask_eq. unfold flag_kept. cbn [snd after_call interrupt_flag].
  destruct (signal_at w (clock w)); auto.
Qed.

Lemma keeps_flag_syscall {R} (c : call) : keeps_flagC (@syscall R c).
Proof.
  unfold syscall. apply keeps_flag_bind; [apply keeps_flag_ask|].
  intros r. apply keeps_flag_ret.
Qed.

Lemma keeps_flag_get_errno {R} : keeps_flagC (@get_errno R).
Proof. intros w. apply flag_kept_refl. Qed.

Lemma keeps_flag_put_errno {R} (e : Z) : keeps_flagC (@put_errno R e).
Proof. intros w. left. reflexivity. Qed.

Lemma keeps_flag_get_interrupt_flag {R} : keeps_flagC (@get_interrupt_flag R).
Proof. intros w. apply flag_kept_refl. Qed.

Lemma keeps_flag_incr_verbosity {R} : keeps_flagC (@incr_verbosity R).
Proof. intros w. left. reflexivity. Qed.

Lemma keeps_flag_strtol {R} (s : string) : keeps_flagC (@strtol R s).
Proof.
  unfold strtol. apply keeps_flag_bind; [|intros; apply keeps_flag_ret].
  apply keeps_flag_when, keeps_flag_put_errno.
Qed.

Lemma keeps_flag_perror {R} (msg : string) : keeps_flagC (@perror R msg).
Proof.
  unfold perror. apply keeps_flag_bind; [apply keeps_flag_get_errno|].
  intros e. apply keeps_flag_emit.
Qed.

Ltac keeps_flag_step :=
  match goal with
  | |- keeps_flagM (body _) => apply keeps_flag_body
  | |- keeps_flagC (bind _ _) => apply keeps_flag_bind; [|intros]
  | |- keeps_flagC (ret _) => apply keeps_flag_ret
  | |- keeps_flagC (return_ _) => apply keeps_flag_return
  | |- keeps_flagC (when _ _) => apply keeps_flag_when
  | |- keeps_flagC (syscall _) => apply keeps_flag_syscall
  | |- keeps_flagC (ask _) => apply keeps_flag_ask
  | |- keeps_flagC (fprintf_stderr _) => apply keeps_flag_emit
  | |- keeps_flagC (emit _) => apply keeps_flag_emit
  | |- keeps_flagC (perror _) => apply keeps_flag_perror
  | |- keeps_flagC get_errno => apply keeps_flag_get_errno
  | |- keeps_flagC (put_errno _) => apply keeps_flag_put_errno
  | |- keeps_flagC get_interrupt_flag => apply keeps_flag_get_interrupt_flag
  | |- keeps_flagC incr_verbosity => apply keeps_flag_incr_verbosity
  | |- keeps_flagC (strtol _) => apply keeps_flag_strtol
  | |- keeps_flagC (invoke _) => apply keeps_flag_invoke
  | |- keeps_flagC (if ?b then _ else _) => destruct b
  | |- keeps_flagC (match ?x with Some _ => _ | None => _ end) => destruct x
  | |- keeps_flagC (match ?x with (_, _) => _ end) => destruct x
  | |- keeps_flagC (let _ := _ in _) => cbv zeta
  end.

Ltac keeps_flag := repeat keeps_flag_step.

Lemma setup_signal_handlers_keeps_flag : keeps_flagM setup_signal_handlers.
Proof. unfold setup_signal_handlers. keeps_flag. Qed.

Lemma loop_iteration_keeps_flag (tun_fd nfds rs ws : Z) :
  keeps_flagM (loop_iteration tun_fd nfds rs ws).
Proof. unfold loop_iteration. keeps_flag. Qed.

Lemma infinite_loop_while_keeps_flag (fuel : nat) :
  forall tun_fd nfds rs ws res,
    keeps_flagM (infinite_loop_while fuel tun_fd nfds rs ws res).
Proof.
  induction fuel as [|fuel IH]; intros tun_fd nfds rs ws res w;
    cbn [infinite_loop_while]; destruct (res =? 0);
    try apply flag_kept_refl.
  pose proof (loop_iteration_keeps_flag tun_fd nfds rs ws w) as H1.
  destruct (loop_iteration tun_fd nfds rs ws w) as [[[res' [rs' ws']] ex] w1].
  cbn [snd] in H1. destruct ex; [|exact H1].
  exact (flag_kept_trans _ _ _ H1 (IH tun_fd nfds rs' ws' res' w1)).
Qed.

Lemma infinite_loop_keeps_flag (fuel : nat) (tun_fd buffer_len : Z) :
  keeps_flagM (infinite_loop fuel tun_fd buffer_len).
Proof. unfold infinite_loop. keeps_flag. apply infinite_loop_while_keeps_flag. Qed.

Lemma create_tun_keeps_flag (tun_fd : option Z) (name : option string)
    (name_buffer_len persistent uid gid : Z) :
  keeps_flagM (create_tun tun_fd name name_buffer_len persistent uid gid).
Proof. unfold create_tun. keeps_flag. Qed.

Lemma close_tun_keeps_flag (fd : Z) : keeps_flagM (close_tun fd).
Proof. unfold close_tun. keeps_flag. Qed.

Lemma cleanup_keeps_flag (tun_fd r : Z) : keeps_flagM (cleanup tun_fd r).
Proof. unfold cleanup. keeps_flag. apply close_tun_keeps_flag. Qed.

Lemma get_uid_by_name_keeps_flag (name : option string) (id : option Z) :
  keeps_flagM (get_uid_by_name name id).
Proof. unfold get_uid_by_name. keeps_flag. Qed.

Lemma get_gid_by_name_keeps_flag (name : option string) (id : option Z) :
  keeps_flagM (get_gid_by_name name id).
Proof. unfold get_gid_by_name. keeps_flag. Qed.

Lemma print_usage_keeps_flag : keeps_flagM print_usage.
Proof. unfold print_usage. keeps_flag. Qed.

Lemma switch_keeps_flag (o : opt) (l : locals) : keeps_flagM (switch o l).
Proof.
  unfold switch, switch_default. keeps_flag;
    first [ apply print_usage_keeps_flag
          | apply get_uid_by_name_keeps_flag
          | apply get_gid_by_name_keeps_flag ].
Qed.

Lemma option_loop_keeps_flag (cmdline : list opt) :
  forall l, keeps_flagM (option_loop cmdline l).
Proof.
  induction cmdline as [|o rest IH]; intros l w; cbn [option_loop].
  - apply flag_kept_refl.
  - pose proof (switch_keeps_flag o l w) as H1.
    destruct (switch o l w) as [l' w1]. cbn [snd] in H1.
    destruct (res l' =? 0); [|exact H1].
    exact (flag_kept_trans _ _ _ H1 (IH l' w1)).
Qed.

Lemma main_keeps_flag (cmdline : list opt) (indeterminate : Z) :
  keeps_flagM (main cmdline indeterminate).
Proof.
  unfold main. keeps_flag;
    first [ apply cleanup_keeps_flag
          | apply create_tun_keeps_flag
          | apply option_loop_keeps_flag ].
Qed.

(** X6. No function of the program resets [interrupt_flag]: once it is not
    0, it is not 0 after [setup_signal_handlers], after [infinite_loop]
    (however long it ran), after [create_tun], after [close_tun] and after
    [main]. *)
Theorem interrupt_flag_never_reset (w : world) :
  interrupt_flag w <> 0 ->
  interrupt_flag (snd (setup_signal_handlers w)) <> 0
  /\ (forall fuel tun_fd buffer_len,
         interrupt_flag (snd (infinite_loop fuel tun_fd buffer_len w)) <> 0)
  /\ (forall tun_fd name name_buffer_len persistent uid gid,
         interrupt_flag
           (snd (create_tun tun_fd name name_buffer_len persistent uid gid w)) <> 0)
  /\ (forall fd, interrupt_flag (snd (close_tun fd w)) <> 0)
  /\ (forall cmdline indeterminate,
         interrupt_flag (snd (main cmdline indeterminate w)) <> 0).
Proof.
  intros Hset.
  assert (Hkeep : forall w', flag_kept w w' -> interrupt_flag w' <> 0).
  { intros w' [H|H]; rewrite H; [exact Hset|discriminate]. }
  repeat split; intros; apply Hkeep.
  - apply setup_signal_handlers_keeps_flag.
  - apply infinite_loop_keeps_flag.
  - apply create_tun_keeps_flag.
  - apply close_tun_keeps_flag.
  - apply main_keeps_flag.
Qed.

Lemma interrupt_flag_never_reset_witness :
  interrupt_flag (snd (setup_signal_handlers interrupted)) <> 0
  /\ (forall fuel tun_fd buffer_len,
         interrupt_flag (snd (infinite_loop fuel tun_fd buffer_len interrupted)) <> 0)
  /\ (forall tun_fd name name_buffer_len persistent uid gid,
         interrupt_flag
           (snd (create_tun tun_fd name name_buffer_len persistent uid gid interrupted))
         <> 0)
  /\ (forall fd, interrupt_flag (snd (close_tun fd interrupted)) <> 0)
  /\ (forall cmdline indeterminate,
         interrupt_flag (snd (main cmdline indeterminate interrupted)) <> 0).
Proof. apply (interrupt_flag_never_reset interrupted). discriminate. Defined.

(** ** [setup_signal_handlers] *)


(** ** [create_tun], path by path *)

(** What [create_tun] did, read off every path.  [run] is the call with a
    [tun_fd] that is not null. *)
Lemma create_tun_paths (cell : Z) (name : option string)
    (name_buffer_len persistent uid gid : Z) (w : world) :
  let run := create_tun (Some cell) name name_buffer_len persistent uid gid w in
  let t := emitted w (snd run) in
  let r := fst (fst (fst run)) in
  match oracle w (clock w) (Open "/dev/net/tun" O_RDWR) with
  | Fail e =>
      r = Z.pos e /\ calls t = [Open "/dev/net/tun" O_RDWR]
      /\ snd (fst (fst run)) = Some cell /\ snd (fst run) = name
      /\ opened t = [] /\ attach_names t = []
  | Done fd _ =>
      forallb (on_descriptor (Z.of_N fd)) (calls t) = true
      /\ opened t = [Z.of_N fd]
      /\ if too_long name then
           r = ENAMETOOLONG
           /\ calls t = [Open "/dev/net/tun" O_RDWR; Close (Z.of_N fd)]
         else
           attach_names t = [requested_name name]
           /\ (r = 0 ->
               calls t
               = success_calls (Z.of_N fd) name
                   (value_of (oracle w (S (S (clock w))) (FcntlGetfl (Z.of_N fd))))
                   persistent uid gid
               /\ snd (fst run)
                  = match name with
                    | Some _ =>
                        Some (strncpy
                                (confirmed_name
                                   (oracle w (S (clock w))
                                      (Ioctl (Z.of_N fd)
                                         (TUNSETIFF (requested_name name)
                                                    (Z.lor IFF_TUN IFF_NO_PI))))
                                   (requested_name name))
                                name_buffer_len)
                    | None => None
                    end
               /\ (name <> None ->
                   strlen (confirmed_name
                             (oracle w (S (clock w))
                                (Ioctl (Z.of_N fd)
                                   (TUNSETIFF (requested_name name)
                                              (Z.lor IFF_TUN IFF_NO_PI))))
                             (requested_name name))
                   < name_buffer_len))
  end.
Proof.
  cbv zeta. unfold success_calls.
  destruct name as [n|]; cbn [too_long requested_name];
    match goal with
    | |- context [create_tun ?a ?b ?c ?d ?e ?f ?w0] =>
        pattern (create_tun a b c d e f w0)
    end;
    match goal with
    | |- ?P _ => set (Q := P)
    end;
    unfold create_tun; run; subst Q; cbv beta; cbn [fst snd];
    repeat known_reply;
    repeat match goal with
           | H : ?b = _ |- context [if ?b then _ else _] => rewrite H
           end.
  all: try (erewrite emitted_app by (read_trace; reflexivity)).
  all: rewrite ?Z.eqb_refl.
  all: repeat match goal with
         | H : negb (?x =? ?y) = _ |- context [?x =? ?y] =>
             apply (f_equal negb) in H; rewrite negb_involutive in H;
             cbn [negb] in H; rewrite H
         end.
  all: repeat split; try reflexivity; try discriminate;
    try (cbn; rewrite ?Z.eqb_refl; reflexivity);
    intros; try discriminate; try congruence;
    repeat split; try reflexivity;
    try (intros; apply Z.leb_gt; assumption).
Qed.

Lemma strncpy_short (s : string) (n : Z) : strlen s <= n -> strncpy s n = s.
Proof.
  unfold strncpy, strlen. intros H.
  assert (Hn : (String.length s <= Z.to_nat n)%nat) by lia.
  clear H. revert Hn. generalize (Z.to_nat n) as k.
  induction s as [|c s IH]; intros k Hk.
  - destruct k; reflexivity.
  - destruct k as [|k]; cbn [String.length] in Hk; [lia|].
    cbn [substring]. rewrite IH by lia. reflexivity.
Qed.



(** X9. A name of [IFNAMSIZ] characters or more is refused with
    [ENAMETOOLONG] after the device was opened: the device is closed again
    and no request has reached the kernel. *)
Theorem create_tun_name_too_long (cell : Z) (n : string)
    (name_buffer_len persistent uid gid : Z) (w : world) (fd : N) (out : payload) :
  oracle w (clock w) (Open "/dev/net/tun" O_RDWR) = Done fd out ->
  IFNAMSIZ <= strlen n ->
  let run := create_tun (Some cell) (Some n) name_buffer_len persistent uid gid w in
  fst (fst (fst run)) = ENAMETOOLONG
  /\ calls (emitted w (snd run)) = [Open "/dev/net/tun" O_RDWR; Close (Z.of_N fd)].
Proof.
  intros Ho Hlen. cbv zeta.
  pose proof (create_tun_paths cell (Some n) name_buffer_len persistent uid gid w) as H.
  cbv zeta in H. rewrite Ho in H. cbn [too_long] in H.
  replace (IFNAMSIZ <=? strlen n) with true in H
    by (symmetry; apply Z.leb_le; exact Hlen).
  tauto.
Qed.

Lemma create_tun_name_too_long_witness :
  let run := create_tun (Some 0) (Some "sixteen-letters."%string) IFNAMSIZ 0 1000 1000
                        (boot all_granted no_signal) in
  fst (fst (fst run)) = ENAMETOOLONG
  /\ calls (emitted (boot all_granted no_signal) (snd run))
     = [Open "/dev/net/tun" O_RDWR; Close 3].
Proof.
  apply (create_tun_name_too_long 0 "sixteen-letters." IFNAMSIZ 0 1000 1000
           (boot all_granted no_signal) 3 NoData).
  - reflexivity.
  - vm_compute. discriminate.
Defined.

Lemma lor_land_same (s n : Z) : Z.land (Z.lor s n) n = n.
Proof.
  apply Z.bits_inj'. intros i Hi. rewrite Z.land_spec, Z.lor_spec.
  destruct (Z.testbit s i), (Z.testbit n i); reflexivity.
Qed.

(** X10. A [create_tun] that returns 0 has made exactly these calls, in
    this order, all on the descriptor it opened: the create-or-attach
    request, [F_GETFL], [F_SETFL] with the flags it read and [O_NONBLOCK]
    added, then [TUNSETPERSIST] exactly when [persistent] is not 0,
    [TUNSETOWNER] exactly when [uid] is not [(uid_t)-1], and [TUNSETGROUP]
    exactly when [gid] is not [(gid_t)-1].  It has closed nothing. *)
Theorem create_tun_success_calls (cell : Z) (name : option string)
    (name_buffer_len persistent uid gid : Z) (w : world) (fd : N) (out : payload) :
  oracle w (clock w) (Open "/dev/net/tun" O_RDWR) = Done fd out ->
  let run := create_tun (Some cell) name name_buffer_len persistent uid gid w in
  let saved := value_of (oracle w (S (S (clock w))) (FcntlGetfl (Z.of_N fd))) in
  fst (fst (fst run)) = 0 ->
  calls (emitted w (snd run))
  = success_calls (Z.of_N fd) name saved persistent uid gid
  /\ Z.land (Z.lor saved O_NONBLOCK) O_NONBLOCK = O_NONBLOCK
  /\ closed (emitted w (snd run)) = [].
Proof.
  intros Ho. cbv zeta. intros Hr.
  pose proof (create_tun_paths cell name name_buffer_len persistent uid gid w) as H.
  cbv zeta in H. rewrite Ho in H.
  destruct H as (_ & _ & H).
  destruct (too_long name).
  - destruct H as [H _]. rewrite H in Hr. discriminate.
  - destruct H as [_ H]. destruct (H Hr) as (Hc & _).
    split; [exact Hc|]. split; [apply lor_land_same|].
    destruct (create_tun_outcome (Some cell) name name_buffer_len persistent uid gid w)
      as (t & E & Hout).
    rewrite (emitted_app _ _ _ E).
    destruct (fst (create_tun (Some cell) name name_buffer_len persistent uid gid w))
      as [[r c] nm].
    cbn [fst] in Hr. destruct Hout as [(_ & fd' & _ & _ & Hcl)|(Hne & _)];
      [exact Hcl|contradiction].
Qed.

Lemma create_tun_success_calls_witness :
  let w := boot all_granted no_signal in
  let run := create_tun (Some 0) (Some "tun7"%string) IFNAMSIZ 1 1000 (to_id (-1)) w in
  calls (emitted w (snd run))
  = success_calls 3 (Some "tun7"%string) 0 1 1000 (to_id (-1))
  /\ Z.land (Z.lor 0 O_NONBLOCK) O_NONBLOCK = O_NONBLOCK
  /\ closed (emitted w (snd run)) = [].
Proof.
  apply (create_tun_success_calls 0 (Some "tun7"%string) IFNAMSIZ 1 1000 (to_id (-1))
           (boot all_granted no_signal) 3 NoData).
  - reflexivity.
  - vm_compute. reflexivity.
Defined.

(** X11. After a [create_tun] that returns 0, the caller's name buffer
    holds the name the kernel confirmed, whole, and that name is shorter
    than the buffer; a null [name] stays null. *)
Theorem create_tun_name_read_back (cell : Z) (name : option string)
    (name_buffer_len persistent uid gid : Z) (w : world) (fd : N) (out : payload) :
  oracle w (clock w) (Open "/dev/net/tun" O_RDWR) = Done fd out ->
  let run := create_tun (Some cell) name name_buffer_len persistent uid gid w in
  let confirmed :=
    confirmed_name
      (oracle w (S (clock w))
              (Ioctl (Z.of_N fd)
                     (TUNSETIFF (requested_name name) (Z.lor IFF_TUN IFF_NO_PI))))
      (requested_name name) in
  fst (fst (fst run)) = 0 ->
  snd (fst run) = match name with Some _ => Some confirmed | None => None end
  /\ (name <> None -> strlen confirmed < name_buffer_len).
Proof.
  intros Ho. cbv zeta. intros Hr.
  pose proof (create_tun_paths cell name name_buffer_len persistent uid gid w) as H.
  cbv zeta in H. rewrite Ho in H.
  destruct H as (_ & _ & H).
  destruct (too_long name).
  - destruct H as [H _]. rewrite H in Hr. discriminate.
  - destruct H as [_ H]. destruct (H Hr) as (_ & Hn & Hlen).
    split; [|exact Hlen].
    rewrite Hn. destruct name as [n|]; [|reflexivity].
    rewrite strncpy_short; [reflexivity|].
    assert (Some n <> None) as Hsome by discriminate.
    specialize (Hlen Hsome). lia.
Qed.

Lemma create_tun_name_read_back_witness :
  let w := boot all_granted no_signal in
  let run := create_tun (Some 0) (Some EmptyString) IFNAMSIZ 0 1000 1000 w in
  snd (fst run) = Some "tun0"%string
  /\ (Some EmptyString <> None -> strlen "tun0" < IFNAMSIZ).
Proof.
  apply (create_tun_name_read_back 0 (Some EmptyString) IFNAMSIZ 0 1000 1000
           (boot all_granted no_signal) 3 NoData).
  - reflexivity.
  - vm_compute. reflexivity.
Defined.

(** X12. Once the device is open, [create_tun] opens nothing else and
    every later call ([ioctl], [fcntl], [close]) is on the descriptor that
    [open] returned.  Unless the name is too long it makes exactly one
    create-or-attach request, for the name it was given (the empty name for
    a null pointer). *)
Theorem create_tun_works_on_its_descriptor (cell : Z) (name : option string)
    (name_buffer_len persistent uid gid : Z) (w : world) (fd : N) (out : payload) :
  oracle w (clock w) (Open "/dev/net/tun" O_RDWR) = Done fd out ->
  let t := emitted w (snd (create_tun (Some cell) name name_buffer_len persistent
                                      uid gid w)) in
  forallb (on_descriptor (Z.of_N fd)) (calls t) = true
  /\ opened t = [Z.of_N fd]
  /\ (too_long name = false -> attach_names t = [requested_name name]).
Proof.
  intros Ho. cbv zeta.
  pose proof (create_tun_paths cell name name_buffer_len persistent uid gid w) as H.
  cbv zeta in H. rewrite Ho in H.
  destruct H as (H1 & H2 & H3).
  split; [exact H1|]. split; [exact H2|].
  intros Hfit. rewrite Hfit in H3. tauto.
Qed.

Lemma create_tun_works_on_its_descriptor_witness :
  let w := boot attach_refused no_signal in
  let t := emitted w (snd (create_tun (Some 0) (Some "tun7"%string) IFNAMSIZ 0
                                      1000 1000 w)) in
  forallb (on_descriptor 3) (calls t) = true
  /\ opened t = [3]
  /\ (too_long (Some "tun7"%string) = false
      -> attach_names t = [requested_name (Some "tun7"%string)]).
Proof.
  apply (create_tun_works_on_its_descriptor 0 (Some "tun7"%string) IFNAMSIZ 0 1000 1000
           (boot attach_refused no_signal) 3 NoData).
  reflexivity.
Defined.

(** ** [close_tun] on a descriptor *)

(** X13. With a positive descriptor [close_tun] closes it, once, and
    returns 0 when [close] returned 0 and the error code of [close] when it
    failed. *)
Theorem close_tun_closes_once (fd : Z) (w : world) :
  0 < fd ->
  let run := close_tun fd w in
  calls (emitted w (snd run)) = [Close fd]
  /\ fst run = match oracle w (clock w) (Close fd) with
               | Done 0 _ => 0
               | Done _ _ => errno w
               | Fail e => Z.pos e
               end.
Proof.
  intros Hpos. cbv zeta. unfold close_tun, when.
  replace (fd <=? 0) with false by (symmetry; apply Z.leb_gt; exact Hpos).
  rewrite body_bind_ret, body_bind_syscall.
  destruct (oracle w (clock w) (Close fd)) as [[|v] o|e] eqn:E;
    cbn [value_of Z.of_N Z.eqb negb]; repeat run_rewrite;
    (split; [erewrite emitted_app by (read_trace; reflexivity); reflexivity
            |reflexivity]).
Qed.

Lemma close_tun_closes_once_witness :
  let run := close_tun 3 (boot all_granted no_signal) in
  calls (emitted (boot all_granted no_signal) (snd run)) = [Close 3]
  /\ fst run = 0.
Proof.
  apply (close_tun_closes_once 3 (boot all_granted no_signal)). lia.
Defined.

(** ** [get_uid_by_name] and [get_gid_by_name]: every string *)

(** X14. With a null [name] or a null [id], both functions return
    [EINVAL] at once: nothing is parsed, the directory is not asked, the
    world is the one they were given. *)
Theorem get_id_by_name_null (name : option string) (id : option Z) (w : world) :
  name = None \/ id = None ->
  get_uid_by_name name id w = (EINVAL, id, w)
  /\ get_gid_by_name name id w = (EINVAL, id, w).
Proof.
  intros [-> | ->]; [|destruct name]; split; reflexivity.
Qed.

Lemma get_id_by_name_null_witness :
  get_uid_by_name None (Some 5) (boot full_directory no_signal)
  = (EINVAL, Some 5, boot full_directory no_signal)
  /\ get_gid_by_name None (Some 5) (boot full_directory no_signal)
     = (EINVAL, Some 5, boot full_directory no_signal).
Proof.
  apply (get_id_by_name_null None (Some 5) (boot full_directory no_signal)).
  left. reflexivity.
Defined.

Lemma to_id_range (x : Z) : 0 <= to_id x <= UINT_MAX.
Proof.
  unfold to_id, UINT_MAX.
  pose proof (Z.mod_pos_bound x (2 ^ 32) ltac:(lia)). lia.
Qed.

Lemma entry_id_range (r : reply) (v : Z) : entry_id r = Some v -> 0 <= v <= UINT_MAX.
Proof.
  destruct r; cbn [entry_id]; [|discriminate].
  intros H. injection H as <-. apply to_id_range.
Qed.

(** X15. Whatever the string, the result of [get_uid_by_name] and of
    [get_gid_by_name] is 0, [EINVAL] or [ERANGE].  With 0 the id stored lies
    in [0, 2^32 - 1]; with an error the object behind [id] holds what it
    held.  The directory is asked once at most. *)
Theorem get_id_by_name_results (name : string) (id : Z) (w : world) :
  let u := get_uid_by_name (Some name) (Some id) w in
  let g := get_gid_by_name (Some name) (Some id) w in
  ((fst (fst u) = 0 /\ exists v, snd (fst u) = Some v /\ 0 <= v <= UINT_MAX)
   \/ ((fst (fst u) = EINVAL \/ fst (fst u) = ERANGE) /\ snd (fst u) = Some id))
  /\ (List.length (calls (emitted w (snd u))) <= 1)%nat
  /\ ((fst (fst g) = 0 /\ exists v, snd (fst g) = Some v /\ 0 <= v <= UINT_MAX)
      \/ ((fst (fst g) = EINVAL \/ fst (fst g) = ERANGE) /\ snd (fst g) = Some id))
  /\ (List.length (calls (emitted w (snd g))) <= 1)%nat.
Proof.
  cbv zeta.
  pose proof (get_uid_by_name_cases name id w) as Hu.
  pose proof (get_gid_by_name_cases name id w) as Hg.
  cbv zeta in Hu, Hg.
  destruct (isnul (char_at name (st_end (strtol10 name)))
            && negb (st_range (strtol10 name))).
  - destruct Hu as [Hu1 Hu2]. destruct Hg as [Hg1 Hg2].
    rewrite Hu1, Hu2, Hg1, Hg2.
    destruct ((st_value (strtol10 name) <? 0) || (UINT_MAX <? st_value (strtol10 name)));
      cbn [fst snd List.length];
      repeat split; try lia;
      first [ right; split; [right; reflexivity|reflexivity]
            | left; split; [reflexivity|];
              eexists; split; [reflexivity|apply to_id_range] ].
  - destruct Hu as [Hu1 Hu2]. destruct Hg as [Hg1 Hg2].
    rewrite Hu1, Hu2, Hg1, Hg2.
    destruct (entry_id (oracle w (clock w) (Getpwnam name))) as [pu|] eqn:Eu;
      destruct (entry_id (oracle w (clock w) (Getgrnam name))) as [pg|] eqn:Eg;
      cbn [fst snd List.length];
      repeat split; try lia;
      first [ right; split; [left; reflexivity|reflexivity]
            | left; split; [reflexivity|];
              eexists; split; [reflexivity|eapply entry_id_range; eassumption] ].
Qed.

(** ** [main], taken apart *)

Lemma main_unfold (cmdline : list opt) (indeterminate : Z) (w : world) :
  main cmdline indeterminate w
  = let w2 := after_call Getegid (after_call Geteuid w) in
    let l0 := initial_locals (value_of (oracle w (clock w) Geteuid))
                             (value_of (oracle w (S (clock w)) Getegid)) in
    main_after_options indeterminate (fst (option_loop cmdline l0 w2))
                       (snd (option_loop cmdline l0 w2)).
Proof.
  cbv zeta. unfold main, main_after_options. cbv zeta.
  rewrite !body_bind_syscall, body_bind_invoke.
  cbn [after_call oracle clock]. unfold initial_locals.
  match goal with
  | |- context [option_loop cmdline ?l0 ?w0] =>
      destruct (option_loop cmdline l0 w0) as [l w3]
  end.
  cbn [fst snd]. unfold when.
  destruct (res l =? 0); cbn [negb].
  - rewrite body_bind_ret, body_bind_invoke.
    destruct (create_tun (Some 0) (Some (ifr_name l)) IFNAMSIZ (persistent l)
                (uid l) (gid l) w3) as [[[r cell] nm] w4].
    cbn [fst snd]. rewrite body_bind_emit.
    destruct (r =? 0); cbn [negb].
    + unfold fprintf_stderr. rewrite body_bind_ret, body_bind_emit, body_invoke.
      reflexivity.
    + rewrite body_bind_bind, body_bind_invoke, body_bind_return.
      destruct (cleanup (deref cell 0) r _). reflexivity.
  - rewrite body_bind_bind, body_bind_invoke, body_bind_return.
    destruct (cleanup indeterminate (res l) w3). reflexivity.
Qed.

Lemma cleanup_only_releases (tun_fd r : Z) : emitsM is_release (cleanup tun_fd r).
Proof. unfold cleanup, close_tun. emits. Qed.

Lemma create_tun_is_provisioning (tun_fd : option Z) (name : option string)
    (name_buffer_len persistent uid gid : Z) :
  emitsM is_provisioning (create_tun tun_fd name name_buffer_len persistent uid gid).
Proof. unfold create_tun. emits. Qed.

Lemma quiet_is_provisioning (e : event) : is_quiet e = true -> is_provisioning e = true.
Proof. destruct e as [[]| | | |]; cbn; congruence. Qed.

Lemma release_is_provisioning (e : event) : is_release e = true -> is_provisioning e = true.
Proof. destruct e as [[]| | | |]; cbn; congruence. Qed.

Lemma main_is_provisioning (cmdline : list opt) (indeterminate : Z) :
  emitsM is_provisioning (main cmdline indeterminate).
Proof.
  unfold main. emits;
    first [ apply emits_weaken with (P := is_release);
            [ exact release_is_provisioning | apply cleanup_only_releases ]
          | apply create_tun_is_provisioning
          | apply emits_weaken with (P := is_quiet);
            [ exact quiet_is_provisioning | apply option_loop_quiet ] ].
Qed.

Lemma MainC_print_usage_quiet : emitsM is_quiet MainC.print_usage.
Proof. unfold MainC.print_usage. emits. Qed.

Lemma MainC_switch_quiet (o : opt) (l : MainC.locals) : emitsM is_quiet (MainC.switch o l).
Proof.
  unfold MainC.switch, MainC.switch_default. emits; apply MainC_print_usage_quiet.
Qed.

Lemma MainC_option_loop_quiet (cmdline : list opt) :
  forall l, emitsM is_quiet (MainC.option_loop cmdline l).
Proof.
  induction cmdline as [|o rest IH]; intros l w; cbn [MainC.option_loop].
  - exists []. rewrite app_nil_r. auto.
  - destruct (MainC_switch_quiet o l w) as (t1 & E1 & F1).
    destruct (MainC.switch o l w) as [l' w1]. cbn [snd] in E1.
    destruct (MainC.res l' =? 0).
    + destruct (IH l' w1) as (t2 & E2 & F2).
      exists (t1 ++ t2). rewrite E2, E1, app_assoc, forallb_app, F1, F2. auto.
    + exists t1. auto.
Qed.

Lemma MainC_create_tun_is_provisioning (tun_fd : option Z) (name : option string)
    (name_buffer_len persistent : Z) :
  emitsM is_provisioning (MainC.create_tun tun_fd name name_buffer_len persistent).
Proof. unfold MainC.create_tun. emits. Qed.

Lemma MainC_main_is_provisioning (cmdline : list opt) :
  emitsM is_provisioning (MainC.main cmdline).
Proof.
  unfold MainC.main. emits;
    first [ apply emits_weaken with (P := is_release);
            [ exact release_is_provisioning | apply cleanup_only_releases ]
          | apply MainC_create_tun_is_provisioning
          | apply emits_weaken with (P := is_quiet);
            [ exact quiet_is_provisioning | apply MainC_option_loop_quiet ] ].
Qed.

Lemma provisioning_collects_nothing (t : list event) :
  forallb is_provisioning t = true ->
  waits t = [] /\ handlers_asked t = [] /\ buffers_asked t = []
  /\ reads t = [] /\ writes t = [].
Proof.
  intros F. repeat split;
    (apply collect_none with (P := is_provisioning); [|exact F]);
    intros [[]| | | |]; cbn; congruence.
Qed.

(** X16. [main], in both iterations that provision the device, never
    reaches [setup_signal_handlers] nor [infinite_loop]: whatever the command
    line and the environment, it asks for no signal handler, allocates no
    buffer, waits for no descriptor and moves no payload.  Once
    "Listening on" is printed the device is released and [main] returns. *)
Theorem main_never_enters_the_loop (cmdline : list opt) (indeterminate : Z) (w : world) :
  let t := emitted w (snd (main cmdline indeterminate w)) in
  let t' := emitted w (snd (MainC.main cmdline w)) in
  (waits t = [] /\ handlers_asked t = [] /\ buffers_asked t = []
   /\ reads t = [] /\ writes t = [])
  /\ (waits t' = [] /\ handlers_asked t' = [] /\ buffers_asked t' = []
      /\ reads t' = [] /\ writes t' = []).
Proof.
  cbv zeta. split.
  - destruct (main_is_provisioning cmdline indeterminate w) as (t & E & F).
    rewrite (emitted_app _ _ _ E). apply provisioning_collects_nothing, F.
  - destruct (MainC_main_is_provisioning cmdline w) as (t & E & F).
    rewrite (emitted_app _ _ _ E). apply provisioning_collects_nothing, F.
Qed.

(** ** One option *)

(** What one turn of the option loop leaves in the variables that
    [create_tun] and the loop would use. *)
Lemma switch_fields (o : opt) (l : locals) (w : world) :
  let l' := fst (switch o l w) in
  ifr_flags l'
  = (if is_chr o "v" then ifr_flags l
     else if is_chr o "i" then ifr_flags l
     else if is_chr o "e" then
       to_short (Z.lor (to_short (Z.land (ifr_flags l) (Z.lnot IFF_TUN))) IFF_TAP)
     else if is_chr o "f" then to_short (Z.land (ifr_flags l) (Z.lnot IFF_NO_PI))
     else ifr_flags l)
  /\ ifr_name l'
     = (if is_chr o "v" then ifr_name l
        else if is_chr o "i" then
          if (strlen (optarg o) =? 0) || (IFNAMSIZ <=? strlen (optarg o))
          then ifr_name l else strncpy (optarg o) IFNAMSIZ
        else ifr_name l)
  /\ (res l' = 0 -> res l = 0 -> buffer_len l' = buffer_len l).
Proof.
  cbv zeta. unfold switch, switch_default, strtol, when, fprintf_stderr.
  destruct (is_chr o "v"); [repeat run_rewrite; auto|].
  destruct (is_chr o "i").
  { destruct ((strlen (optarg o) =? 0) || (IFNAMSIZ <=? strlen (optarg o)));
      repeat run_rewrite; auto. }
  destruct (is_chr o "e"); [repeat run_rewrite; auto|].
  destruct (is_chr o "f"); [repeat run_rewrite; auto|].
  destruct (is_chr o "p"); [repeat run_rewrite; auto|].
  destruct (is_chr o "u").
  { rewrite body_bind_invoke.
    destruct (get_uid_by_name (Some (optarg o)) (Some (uid l)) w) as [[r id] w'].
    repeat run_rewrite. auto. }
  destruct (is_chr o "g").
  { rewrite body_bind_invoke.
    destruct (get_gid_by_name (Some (optarg o)) (Some (gid l)) w) as [[r id] w'].
    repeat run_rewrite. auto. }
  destruct (is_chr o "b").
  { rewrite body_bind_bind.
    destruct (st_range (strtol10 (optarg o))); repeat run_rewrite;
      cbn [buffer_len with_buffer_len];
      destruct (to_int (st_value (strtol10 (optarg o))) <=? 0);
      repeat run_rewrite; cbn [fst res with_res ifr_flags ifr_name with_buffer_len];
      repeat split; intros; discriminate. }
  repeat run_rewrite. cbn [fst res with_res ifr_flags ifr_name].
  repeat split; intros; discriminate.
Qed.

(** ** The option loop: what it keeps *)

Lemma option_loop_guarded (J : locals -> Prop) :
  (forall o l w, J l -> res (fst (switch o l w)) = 0 -> J (fst (switch o l w))) ->
  forall cmdline l w,
    J l -> res (fst (option_loop cmdline l w)) = 0 -> J (fst (option_loop cmdline l w)).
Proof.
  intros Hstep. induction cmdline as [|o rest IH]; intros l w HJ; cbn [option_loop].
  - auto.
  - specialize (Hstep o l w HJ).
    destruct (switch o l w) as [l' w1]. cbn [fst] in Hstep.
    destruct (Z.eqb_spec (res l') 0) as [Hz|Hnz].
    + apply IH. auto.
    + cbn [fst]. intros H. contradiction.
Qed.

Lemma option_loop_invariant (I : locals -> Prop) :
  (forall o l w, I l -> I (fst (switch o l w))) ->
  forall cmdline l w, I l -> I (fst (option_loop cmdline l w)).
Proof.
  intros Hstep. induction cmdline as [|o rest IH]; intros l w HI; cbn [option_loop].
  - exact HI.
  - specialize (Hstep o l w HI).
    destruct (switch o l w) as [l' w1]. cbn [fst] in Hstep.
    destruct (res l' =? 0); [apply IH|]; exact Hstep.
Qed.

Lemma main_flags_cases (flags : Z) :
  main_flags flags = true ->
  flags = 0 \/ flags = IFF_TAP \/ flags = IFF_NO_PI \/ flags = Z.lor IFF_TAP IFF_NO_PI.
Proof.
  unfold main_flags. intros H.
  repeat (apply orb_true_iff in H; destruct H as [H|H]);
    apply Z.eqb_eq in H; auto.
Qed.

(** X22. The option loop of [main] never sets [IFF_TUN] in its
    [ifr.ifr_flags].  Whatever the options and however the loop ends, the
    flags are one of 0, [IFF_TAP], [IFF_NO_PI] and [IFF_TAP | IFF_NO_PI]:
    without -e neither TUN nor TAP is selected there. *)
Theorem option_loop_flags (cmdline : list opt) (euid egid : Z) (w : world) :
  let l := fst (option_loop cmdline (initial_locals euid egid) w) in
  main_flags (ifr_flags l) = true /\ Z.land (ifr_flags l) IFF_TUN = 0.
Proof.
  cbv zeta.
  assert (H : main_flags
                (ifr_flags (fst (option_loop cmdline (initial_locals euid egid) w)))
              = true).
  { apply (option_loop_invariant (fun l => main_flags (ifr_flags l) = true));
      [|reflexivity].
    intros o l w0 Hl.
    destruct (switch_fields o l w0) as (Hf & _). cbv zeta in Hf. rewrite Hf.
    destruct (is_chr o "v"); [exact Hl|].
    destruct (is_chr o "i"); [exact Hl|].
    apply main_flags_cases in Hl.
    destruct (is_chr o "e");
      [destruct Hl as [->|[->|[->| ->]]]; reflexivity|].
    destruct (is_chr o "f");
      [destruct Hl as [->|[->|[->| ->]]]; reflexivity|].
    destruct Hl as [->|[->|[->| ->]]]; reflexivity. }
  split; [exact H|].
  apply main_flags_cases in H.
  destruct H as [->|[->|[->| ->]]]; reflexivity.
Qed.

(** X23. In [src/unnamed/part_000] the option -b cannot take effect.
    When the option loop ends with [res] equal to 0, the only way [main]
    goes on to [create_tun], [buffer_len] still holds
    [DEFAULT_BUFFER_LEN]. *)
Theorem option_loop_keeps_default_buffer (cmdline : list opt) (euid egid : Z) (w : world) :
  let l := fst (option_loop cmdline (initial_locals euid egid) w) in
  res l = 0 -> buffer_len l = DEFAULT_BUFFER_LEN.
Proof.
  cbv zeta. intros Hres.
  apply (option_loop_guarded
           (fun l => res l = 0 /\ buffer_len l = DEFAULT_BUFFER_LEN))
    with (cmdline := cmdline) (l := initial_locals euid egid) (w := w);
    [|split; reflexivity|exact Hres].
  intros o l w0 [Hr Hb] Hr'. split; [exact Hr'|].
  destruct (switch_fields o l w0) as (_ & _ & Hk). cbv zeta in Hk.
  rewrite (Hk Hr' Hr). exact Hb.
Qed.

Lemma option_loop_keeps_default_buffer_witness :
  buffer_len
    (fst (option_loop [mkOpt "v" EmptyString; mkOpt "e" EmptyString; mkOpt "p" EmptyString]
                      (initial_locals 1000 1000) (boot all_granted no_signal)))
  = DEFAULT_BUFFER_LEN.
Proof.
  apply (option_loop_keeps_default_buffer
           [mkOpt "v" EmptyString; mkOpt "e" EmptyString; mkOpt "p" EmptyString]
           1000 1000 (boot all_granted no_signal)).
  reflexivity.
Defined.

(** The name that [main] hands to [create_tun] is shorter than
    [IFNAMSIZ]. *)
Lemma option_loop_name_fits (cmdline : list opt) (euid egid : Z) (w : world) :
  strlen (ifr_name (fst (option_loop cmdline (initial_locals euid egid) w))) < IFNAMSIZ.
Proof.
  apply (option_loop_invariant (fun l => strlen (ifr_name l) < IFNAMSIZ));
    [|reflexivity].
  intros o l w0 Hl.
  destruct (switch_fields o l w0) as (_ & Hn & _). cbv zeta in Hn. rewrite Hn.
  destruct (is_chr o "v"); [exact Hl|].
  destruct (is_chr o "i"); [|exact Hl].
  destruct (strlen (optarg o) =? 0); cbn [orb]; [exact Hl|].
  destruct (Z.leb_spec IFNAMSIZ (strlen (optarg o))) as [Hlong|Hshort]; [exact Hl|].
  rewrite strncpy_short by lia. exact Hshort.
Qed.

(** X24. In the first document of [src/main.c] the option -b does take
    effect, and the buffer size stays positive: when the option loop ends
    with [res] equal to 0, [buffer_len] is greater than 0. *)
Theorem MainC_option_loop_buffer_positive (cmdline : list opt) (w : world) :
  let l := fst (MainC.option_loop cmdline
                  (MainC.mkLocals 0 0 DEFAULT_BUFFER_LEN EmptyString IFF_NO_PI) w) in
  MainC.res l = 0 -> 0 < MainC.buffer_len l.
Proof.
  cbv zeta.
  assert (Hstep : forall o l w0,
             MainC.res l = 0 /\ 0 < MainC.buffer_len l ->
             MainC.res (fst (MainC.switch o l w0)) = 0 ->
             MainC.res (fst (MainC.switch o l w0)) = 0
             /\ 0 < MainC.buffer_len (fst (MainC.switch o l w0))).
  { intros o l w0 [Hr Hb] Hr'. split; [exact Hr'|]. revert Hr'.
    unfold MainC.switch, MainC.switch_default, strtol, when, fprintf_stderr.
    destruct (is_chr o "v"); [repeat run_rewrite; auto|].
    destruct (is_chr o "i").
    { destruct ((strlen (optarg o) =? 0) || (IFNAMSIZ <=? strlen (optarg o)));
        repeat run_rewrite; auto. }
    destruct (is_chr o "e"); [repeat run_rewrite; auto|].
    destruct (is_chr o "f"); [repeat run_rewrite; auto|].
    destruct (is_chr o "p"); [repeat run_rewrite; auto|].
    destruct (is_chr o "b"); [|repeat run_rewrite; auto].
    rewrite body_bind_bind.
    destruct (st_range (strtol10 (optarg o))); repeat run_rewrite;
      cbn [MainC.buffer_len MainC.with_buffer_len];
      destruct (Z.leb_spec (to_int (st_value (strtol10 (optarg o)))) 0);
      repeat run_rewrite;
      cbn [fst MainC.res MainC.with_res MainC.buffer_len MainC.with_buffer_len];
      intros; first [discriminate | assumption]. }
  assert (Hloop : forall cl l w0,
             MainC.res l = 0 /\ 0 < MainC.buffer_len l ->
             MainC.res (fst (MainC.option_loop cl l w0)) = 0 ->
             0 < MainC.buffer_len (fst (MainC.option_loop cl l w0))).
  { induction cl as [|o rest IH]; intros l w0 HJ; cbn [MainC.option_loop].
    - intros _. apply HJ.
    - specialize (Hstep o l w0 HJ).
      destruct (MainC.switch o l w0) as [l' w1]. cbn [fst] in Hstep.
      destruct (Z.eqb_spec (MainC.res l') 0) as [Hz|Hnz].
      + apply IH. auto.
      + cbn [fst]. intros H. contradiction. }
  apply Hloop. split; reflexivity.
Qed.

Lemma MainC_option_loop_buffer_positive_witness :
  0 < MainC.buffer_len
        (fst (MainC.option_loop [mkOpt "b" "1024"]
                (MainC.mkLocals 0 0 DEFAULT_BUFFER_LEN EmptyString IFF_NO_PI)
                (boot all_granted no_signal))).
Proof.
  apply (MainC_option_loop_buffer_positive [mkOpt "b" "1024"]
           (boot all_granted no_signal)).
  vm_compute. reflexivity.
Defined.

(** ** [main]: what it returns *)

Lemma release_or_quiet_collects_nothing (t : list event) :
  forallb (fun e => is_quiet e || is_release e) t = true ->
  acquisitions t = [] /\ open_attempts t = [] /\ opened t = [] /\ attach_names t = [].
Proof.
  intros F. repeat split;
    (apply collect_none with (P := fun e => is_quiet e || is_release e); [|exact F]);
    intros [[]| | | |]; cbn; congruence.
Qed.

Lemma quiet_attaches_nothing (t : list event) :
  forallb is_quiet t = true -> opened t = [] /\ attach_names t = [].
Proof.
  intros F. split;
    (apply collect_none with (P := is_quiet); [|exact F]);
    intros [[]| | | |]; cbn; congruence.
Qed.

(** The trace of a run of [main]: the identity calls and the option loop
    first, which touch no descriptor; then either the [cleanup:] label at
    once, or [create_tun], its record, and the way out. *)
Lemma main_anatomy (cmdline : list opt) (indeterminate : Z) (w : world) :
  exists (l : locals) (w3 : world) (tq t3 : list event),
    (exists euid egid w2, l = fst (option_loop cmdline (initial_locals euid egid) w2))
    /\ forallb is_quiet tq = true
    /\ forallb (fun e => is_quiet e || is_release e) t3 = true
    /\ ((res l <> 0
         /\ fst (main cmdline indeterminate w) = res l
         /\ emitted w (snd (main cmdline indeterminate w)) = tq ++ t3)
        \/ (res l = 0
            /\ let ct := create_tun (Some 0) (Some (ifr_name l)) IFNAMSIZ
                                    (persistent l) (uid l) (gid l) w3 in
               fst (main cmdline indeterminate w) = fst (fst (fst ct))
               /\ emitted w (snd (main cmdline indeterminate w))
                  = tq ++ emitted w3 (snd ct)
                    ++ EvCreateTunReturned (fst (fst (fst ct)))
                                           (deref (snd (fst (fst ct))) 0) :: t3)).
Proof.
  rewrite main_unfold. cbv zeta.
  set (w2 := after_call Getegid (after_call Geteuid w)).
  set (l0 := initial_locals _ _).
  assert (E2 : exists t0, trace w2 = trace w ++ t0 /\ forallb is_quiet t0 = true).
  { eexists. split; [subst w2; read_trace; reflexivity|reflexivity]. }
  destruct E2 as (t0 & E2 & F0).
  destruct (option_loop_quiet cmdline l0 w2) as (t1 & E1 & F1).
  exists (fst (option_loop cmdline l0 w2)), (snd (option_loop cmdline l0 w2)), (t0 ++ t1).
  destruct (option_loop cmdline l0 w2) as [l w3] eqn:Eloop. cbn [fst snd] in *.
  assert (Fq : forallb is_quiet (t0 ++ t1) = true)
    by (rewrite forallb_app, F0, F1; reflexivity).
  assert (Hl : exists euid egid w2', l = fst (option_loop cmdline (initial_locals euid egid) w2')).
  { exists (value_of (oracle w (clock w) Geteuid)),
      (value_of (oracle w (S (clock w)) Getegid)), w2.
    fold l0. rewrite Eloop. reflexivity. }
  unfold main_after_options.
  destruct (Z.eqb_spec (res l) 0) as [Hz|Hnz].
  - destruct (create_tun_outcome (Some 0) (Some (ifr_name l)) IFNAMSIZ
                (persistent l) (uid l) (gid l) w3) as (t2 & E3 & _).
    destruct (create_tun (Some 0) (Some (ifr_name l)) IFNAMSIZ
                (persistent l) (uid l) (gid l) w3) as [[[r cell] nm] w4].
    cbn [fst snd] in *. rewrite (emitted_app _ _ _ E3).
    destruct (r =? 0).
    + match goal with
      | |- context [cleanup ?f ?r0 ?w0] =>
          destruct (cleanup_only_releases f r0 w0) as (t3 & E4 & F3);
          destruct (cleanup_outcome f r0 w0) as (_ & _ & Hr & _)
      end.
      cbn [log trace] in E4. rewrite E3, E1, E2 in E4.
      exists (EvStderr (line "Listening on %s") :: t3).
      split; [exact Hl|]. split; [exact Fq|].
      split.
      { cbn [forallb is_quiet orb andb].
        apply (forallb_weaken is_release); [|exact F3].
        intros e He. rewrite He. apply orb_true_r. }
      right. split; [exact Hz|]. split; [exact Hr|].
      erewrite emitted_app by (rewrite E4; repeat rewrite <- app_assoc; reflexivity).
      repeat rewrite <- app_assoc. reflexivity.
    + match goal with
      | |- context [cleanup ?f ?r0 ?w0] =>
          destruct (cleanup_only_releases f r0 w0) as (t3 & E4 & F3);
          destruct (cleanup_outcome f r0 w0) as (_ & _ & Hr & _)
      end.
      cbn [log trace] in E4. rewrite E3, E1, E2 in E4.
      exists t3.
      split; [exact Hl|]. split; [exact Fq|].
      split.
      { apply (forallb_weaken is_release); [|exact F3].
        intros e He. rewrite He. apply orb_true_r. }
      right. split; [exact Hz|]. split; [exact Hr|].
      erewrite emitted_app by (rewrite E4; repeat rewrite <- app_assoc; reflexivity).
      repeat rewrite <- app_assoc. reflexivity.
  - destruct (cleanup_only_releases indeterminate (res l) w3) as (t3 & E4 & F3).
    destruct (cleanup_outcome indeterminate (res l) w3) as (_ & _ & Hr & _).
    rewrite E1, E2 in E4.
    exists t3.
    split; [exact Hl|]. split; [exact Fq|].
    split.
    { apply (forallb_weaken is_release); [|exact F3].
      intros e He. rewrite He. apply orb_true_r. }
    left. split; [exact Hnz|]. split; [exact Hr|].
    erewrite emitted_app by (rewrite E4; repeat rewrite <- app_assoc; reflexivity).
    repeat rewrite <- app_assoc. reflexivity.
Qed.

(** X17. The exit code of [main] ([src/unnamed/part_000]).  Either
    [create_tun] was not reached, and the code is not 0; or it was reached
    once, and the code is what [create_tun] returned, whatever [close_tun]
    did afterwards.  So [main] returns 0 only after a [create_tun] that
    returned 0. *)
Theorem main_exit_code (cmdline : list opt) (indeterminate : Z) (w : world) :
  let run := main cmdline indeterminate w in
  (acquisitions (emitted w (snd run)) = [] /\ fst run <> 0)
  \/ exists fd, acquisitions (emitted w (snd run)) = [(fst run, fd)].
Proof.
  cbv zeta.
  destruct (main_anatomy cmdline indeterminate w)
    as (l & w3 & tq & t3 & _ & Fq & F3 & H).
  destruct (quiet_collects_nothing tq Fq) as (Aq & _).
  destruct (release_or_quiet_collects_nothing t3 F3) as (A3 & _).
  unfold acquisitions in *.
  destruct H as [(Hnz & Hr & E)|(Hz & Hr & E)].
  - left. rewrite E, Hr, collect_app, Aq, A3. auto.
  - right. cbv zeta in Hr, E.
    destruct (create_tun_records_nothing (Some 0) (Some (ifr_name l)) IFNAMSIZ
                (persistent l) (uid l) (gid l) w3) as (t2 & E2 & F2).
    rewrite (emitted_app _ _ _ E2) in E.
    destruct (unrecorded_collects_nothing t2 F2) as (A2 & _).
    unfold acquisitions in A2.
    eexists. rewrite E, Hr, !collect_app, Aq, A2.
    cbn [collect app]. rewrite A3. reflexivity.
Qed.

(** X25. In a run of [main], every device that is opened gets its
    create-or-attach request: the name that the option loop leaves in
    [ifr.ifr_name] is shorter than [IFNAMSIZ], so [create_tun] never takes
    its name-too-long exit there. *)
Theorem main_attaches_what_it_opens (cmdline : list opt) (indeterminate : Z) (w : world) :
  let t := emitted w (snd (main cmdline indeterminate w)) in
  List.length (attach_names t) = List.length (opened t)
  /\ Forall (fun nm => strlen nm < IFNAMSIZ) (attach_names t).
Proof.
  cbv zeta.
  destruct (main_anatomy cmdline indeterminate w)
    as (l & w3 & tq & t3 & (euid & egid & w2 & Hl) & Fq & F3 & H).
  destruct (quiet_attaches_nothing tq Fq) as (Oq & Nq).
  destruct (release_or_quiet_collects_nothing t3 F3) as (_ & _ & O3 & N3).
  unfold attach_names, opened in *.
  destruct H as [(Hnz & Hr & E)|(Hz & Hr & E)].
  - rewrite E, !collect_app, Oq, Nq, O3, N3. split; [reflexivity|constructor].
  - cbv zeta in E.
    pose proof (option_loop_name_fits cmdline euid egid w2) as Hfit.
    rewrite <- Hl in Hfit.
    pose proof (create_tun_paths 0 (Some (ifr_name l)) IFNAMSIZ
                  (persistent l) (uid l) (gid l) w3) as Hp.
    cbv zeta in Hp. unfold attach_names, opened in Hp.
    rewrite E, !collect_app, Oq, Nq. cbn [collect app]. rewrite O3, N3, !app_nil_r.
    destruct (oracle w3 (clock w3) (Open "/dev/net/tun" O_RDWR)) as [fd out|e].
    + destruct Hp as (_ & Ho & Hp). cbn [too_long] in Hp.
      replace (IFNAMSIZ <=? strlen (ifr_name l)) with false in Hp
        by (symmetry; apply Z.leb_gt; exact Hfit).
      destruct Hp as (Hn & _).
      rewrite Ho, Hn. split; [reflexivity|].
      constructor; [|constructor].
      cbn [requested_name]. rewrite strncpy_short by lia. exact Hfit.
    + destruct Hp as (_ & _ & _ & _ & Ho & Hn).
      rewrite Ho, Hn. split; [reflexivity|constructor].
Qed.

(** ** [main]: options that end it *)

(** A first option that leaves a code other than 0 in [res] ends the
    option loop; [main] returns that code, and the device is not opened. *)
Lemma main_first_option_code (o : opt) (rest : list opt) (indeterminate : Z) (w : world) :
  let w2 := after_call Getegid (after_call Geteuid w) in
  let l0 := initial_locals (value_of (oracle w (clock w) Geteuid))
                           (value_of (oracle w (S (clock w)) Getegid)) in
  let code := res (fst (switch o l0 w2)) in
  code <> 0 ->
  let run := main (o :: rest) indeterminate w in
  fst run = code
  /\ open_attempts (emitted w (snd run)) = []
  /\ acquisitions (emitted w (snd run)) = [].
Proof.
  cbv zeta. intros Hcode. rewrite main_unfold. cbv zeta.
  set (w2 := after_call Getegid (after_call Geteuid w)) in *.
  set (l0 := initial_locals _ _) in *.
  assert (E2 : exists t0, trace w2 = trace w ++ t0 /\ forallb is_quiet t0 = true).
  { eexists. split; [subst w2; read_trace; reflexivity|reflexivity]. }
  destruct E2 as (t0 & E2 & F0).
  cbn [option_loop].
  destruct (switch_quiet o l0 w2) as (t1 & E1 & F1).
  destruct (switch o l0 w2) as [l w3]. cbn [fst snd] in *.
  replace (res l =? 0) with false by (symmetry; apply Z.eqb_neq; exact Hcode).
  cbn [fst snd]. unfold main_after_options.
  replace (res l =? 0) with false by (symmetry; apply Z.eqb_neq; exact Hcode).
  destruct (cleanup_outcome indeterminate (res l) w3) as (t3 & E4 & Hr & A3 & O3 & _).
  destruct (quiet_collects_nothing t0 F0) as (A0 & _ & _ & O0).
  destruct (quiet_collects_nothing t1 F1) as (A1 & _ & _ & O1).
  rewrite E1, E2 in E4.
  erewrite emitted_app by (rewrite E4; repeat rewrite <- app_assoc; reflexivity).
  unfold open_attempts, acquisitions in *.
  rewrite !collect_app, A0, A1, A3, O0, O1, O3. auto.
Qed.

Lemma switch_interface_invalid (s : string) (l : locals) (w : world) :
  strlen s = 0 \/ IFNAMSIZ <= strlen s ->
  res (fst (switch (mkOpt "i" s) l w)) = EINVAL.
Proof.
  intros H. unfold switch.
  change (is_chr (mkOpt "i" s) "v") with false.
  change (is_chr (mkOpt "i" s) "i") with true.
  cbv iota. cbn [optarg].
  replace ((strlen s =? 0) || (IFNAMSIZ <=? strlen s)) with true.
  - unfold when, fprintf_stderr. repeat run_rewrite. reflexivity.
  - symmetry. apply orb_true_iff.
    destruct H as [H|H]; [left; apply Z.eqb_eq|right; apply Z.leb_le]; exact H.
Qed.

(** X19. An interface name that is empty, or has [IFNAMSIZ] characters
    or more, given as first option, makes [main] return [EINVAL] without
    opening the device. *)
Theorem main_invalid_interface_name (s : string) (rest : list opt) (indeterminate : Z)
    (w : world) :
  strlen s = 0 \/ IFNAMSIZ <= strlen s ->
  let run := main (mkOpt "i" s :: rest) indeterminate w in
  fst run = EINVAL
  /\ open_attempts (emitted w (snd run)) = []
  /\ acquisitions (emitted w (snd run)) = [].
Proof.
  intros H. cbv zeta.
  pose proof (main_first_option_code (mkOpt "i" s) rest indeterminate w) as Hm.
  cbv zeta in Hm. rewrite (switch_interface_invalid s _ _ H) in Hm.
  apply Hm. discriminate.
Qed.

Lemma main_invalid_interface_name_witness :
  let run := main [mkOpt "i" "sixteen-letters."] 0 (boot all_granted no_signal) in
  fst run = EINVAL
  /\ open_attempts (emitted (boot all_granted no_signal) (snd run)) = []
  /\ acquisitions (emitted (boot all_granted no_signal) (snd run)) = [].
Proof.
  apply (main_invalid_interface_name "sixteen-letters." [] 0
           (boot all_granted no_signal)).
  right. vm_compute. discriminate.
Defined.

(** X26. In [src/unnamed/part_000] a buffer size that is not positive
    (also one that [strtol] cannot read, which counts as 0), given as first
    option, makes [main] return [EINVAL] without opening the device. *)
Theorem main_buffer_not_positive (s : string) (rest : list opt) (indeterminate : Z)
    (w : world) :
  to_int (st_value (strtol10 s)) <= 0 ->
  let run := main (mkOpt "b" s :: rest) indeterminate w in
  fst run = EINVAL
  /\ open_attempts (emitted w (snd run)) = []
  /\ acquisitions (emitted w (snd run)) = [].
Proof. exact (main_invalid_buffer_exits s rest indeterminate w). Qed.

Lemma main_buffer_not_positive_witness :
  let run := main [mkOpt "b" "none"] 0 (boot all_granted no_signal) in
  fst run = EINVAL
  /\ open_attempts (emitted (boot all_granted no_signal) (snd run)) = []
  /\ acquisitions (emitted (boot all_granted no_signal) (snd run)) = [].
Proof.
  apply (main_buffer_not_positive "none" [] 0 (boot all_granted no_signal)).
  vm_compute. discriminate.
Defined.




Lemma switch_owner_result (group : bool) (s : string) (l : locals) (w : world) :
  res (fst (switch (mkOpt (if group then "g" else "u")%char s) l w))
  = if group then fst (fst (get_gid_by_name (Some s) (Some (gid l)) w))
    else fst (fst (get_uid_by_name (Some s) (Some (uid l)) w)).
Proof.
  destruct group; unfold switch.
  - change (is_chr (mkOpt "g" s) "v") with false.
    change (is_chr (mkOpt "g" s) "i") with false.
    change (is_chr (mkOpt "g" s) "e") with false.
    change (is_chr (mkOpt "g" s) "f") with false.
    change (is_chr (mkOpt "g" s) "p") with false.
    change (is_chr (mkOpt "g" s) "u") with false.
    change (is_chr (mkOpt "g" s) "g") with true.
    cbv iota. cbn [optarg]. rewrite body_bind_invoke.
    destruct (get_gid_by_name (Some s) (Some (gid l)) w) as [[r id] w'].
    reflexivity.
  - change (is_chr (mkOpt "u" s) "v") with false.
    change (is_chr (mkOpt "u" s) "i") with false.
    change (is_chr (mkOpt "u" s) "e") with false.
    change (is_chr (mkOpt "u" s) "f") with false.
    change (is_chr (mkOpt "u" s) "p") with false.
    change (is_chr (mkOpt "u" s) "u") with true.
    cbv iota. cbn [optarg]. rewrite body_bind_invoke.
    destruct (get_uid_by_name (Some s) (Some (uid l)) w) as [[r id] w'].
    reflexivity.
Qed.

(** X21. An owner or group, given as first option, that
    [get_uid_by_name] or [get_gid_by_name] refuses ends [main]: it returns
    the code of the refusal and does not open the device. *)
Theorem main_owner_refused (group : bool) (s : string) (rest : list opt)
    (indeterminate : Z) (w : world) :
  let w2 := after_call Getegid (after_call Geteuid w) in
  let euid := to_id (value_of (oracle w (clock w) Geteuid)) in
  let egid := to_id (value_of (oracle w (S (clock w)) Getegid)) in
  let code := if group then fst (fst (get_gid_by_name (Some s) (Some egid) w2))
              else fst (fst (get_uid_by_name (Some s) (Some euid) w2)) in
  code <> 0 ->
  let run := main (mkOpt (if group then "g" else "u")%char s :: rest) indeterminate w in
  fst run = code
  /\ open_attempts (emitted w (snd run)) = []
  /\ acquisitions (emitted w (snd run)) = [].
Proof.
  cbv zeta. intros Hcode.
  pose proof (main_first_option_code (mkOpt (if group then "g" else "u")%char s)
                rest indeterminate w) as Hm.
  cbv zeta in Hm. rewrite switch_owner_result in Hm.
  unfold initial_locals in Hm. cbn [uid gid] in Hm.
  exact (Hm Hcode).
Qed.

Lemma main_owner_refused_witness :
  let w := boot empty_directory no_signal in
  let run := main [mkOpt "u" "nobody"] 0 w in
  fst run = EINVAL
  /\ open_attempts (emitted w (snd run)) = []
  /\ acquisitions (emitted w (snd run)) = [].
Proof.
  apply (main_owner_refused false "nobody" [] 0 (boot empty_directory no_signal)).
  vm_compute. discriminate.
Defined.

(** ** [main] of the first document of [src/main.c] *)

Lemma MainC_create_tun_records_nothing (tun_fd : option Z) (name : option string)
    (name_buffer_len persistent : Z) :
  emitsM (fun e => negb (is_record e))
         (MainC.create_tun tun_fd name name_buffer_len persistent).
Proof. unfold MainC.create_tun. emits. Qed.

(** X18. In the first document of [src/main.c], [main] calls
    [create_tun] in every run, once, whatever the option loop left in
    [res]; and the exit code is what [create_tun] returned.  An error of the
    option loop is lost. *)
Theorem MainC_main_always_provisions (cmdline : list opt) (w : world) :
  let run := MainC.main cmdline w in
  exists fd, acquisitions (emitted w (snd run)) = [(fst run, fd)].
Proof.
  cbv zeta. unfold MainC.main. cbv zeta.
  rewrite body_bind_invoke.
  match goal with
  | |- context [MainC.option_loop cmdline ?l0 w] =>
      destruct (MainC_option_loop_quiet cmdline l0 w) as (t1 & E1 & F1);
      destruct (MainC.option_loop cmdline l0 w) as [l w3]
  end.
  cbn [fst snd] in *.
  destruct (quiet_collects_nothing t1 F1) as (A1 & _).
  rewrite body_bind_invoke.
  destruct (MainC_create_tun_records_nothing (Some 0) (Some (MainC.ifr_name l)) IFNAMSIZ
              (MainC.persistent l) w3) as (t2 & E2 & F2).
  destruct (unrecorded_collects_nothing t2 F2) as (A2 & _).
  destruct (MainC.create_tun (Some 0) (Some (MainC.ifr_name l)) IFNAMSIZ
              (MainC.persistent l) w3) as [[[r cell] nm] w4].
  cbn [fst snd] in *. rewrite body_bind_emit. unfold when, fprintf_stderr.
  unfold acquisitions in *.
  destruct (r =? 0); cbn [negb].
  - rewrite body_bind_ret, body_bind_emit, body_invoke.
    match goal with
    | |- context [cleanup ?f ?r0 ?w0] =>
        destruct (cleanup_outcome f r0 w0) as (t3 & E4 & Hr & A3 & _)
    end.
    unfold acquisitions in A3.
    cbn [log trace] in E4. rewrite E2, E1 in E4.
    exists (deref cell 0).
    erewrite emitted_app by (rewrite E4; repeat rewrite <- app_assoc; reflexivity).
    rewrite Hr, !collect_app, A1, A2. cbn [collect app]. rewrite A3. reflexivity.
  - rewrite body_bind_bind, body_bind_invoke, body_bind_return. cbn [fst snd].
    match goal with
    | |- context [cleanup ?f ?r0 ?w0] =>
        destruct (cleanup_outcome f r0 w0) as (t3 & E4 & Hr & A3 & _)
    end.
    unfold acquisitions in A3.
    cbn [log trace] in E4. rewrite E2, E1 in E4.
    exists (deref cell 0).
    erewrite emitted_app by (rewrite E4; repeat rewrite <- app_assoc; reflexivity).
    rewrite Hr, !collect_app, A1, A2. cbn [collect app]. rewrite A3. reflexivity.
Qed.

(** An interface name that the option loop refuses does not stop this
    [main]: the device is provisioned and the exit code is 0. *)
Lemma MainC_main_loses_option_error :
  let w := boot all_granted no_signal in
  let run := MainC.main [mkOpt "i" "sixteen-letters."] w in
  MainC.res (fst (MainC.option_loop [mkOpt "i" "sixteen-letters."]
               (MainC.mkLocals 0 0 DEFAULT_BUFFER_LEN EmptyString IFF_NO_PI) w)) = EINVAL
  /\ fst run = 0
  /\ acquisitions (emitted w (snd run)) = [(0, 3)].
Proof. cbv zeta. repeat split; vm_compute; reflexivity. Qed.

(** ** [errno] on the way in and on the way out *)

(** X27. [get_uid_by_name] and [get_gid_by_name] set [errno] to 0 before
    they call [strtol]: what they return and what they store does not depend
    on the value that [errno] had when they were called. *)
Theorem get_id_by_name_ignores_stale_errno (name : string) (id : Z) (w : world) (e : Z) :
  fst (get_uid_by_name (Some name) (Some id) (set_errno e w))
  = fst (get_uid_by_name (Some name) (Some id) w)
  /\ fst (get_gid_by_name (Some name) (Some id) (set_errno e w))
     = fst (get_gid_by_name (Some name) (Some id) w).
Proof.
  pose proof (get_uid_by_name_cases name id w) as Hu.
  pose proof (get_uid_by_name_cases name id (set_errno e w)) as Hu'.
  pose proof (get_gid_by_name_cases name id w) as Hg.
  pose proof (get_gid_by_name_cases name id (set_errno e w)) as Hg'.
  cbv zeta in *. cbn [set_errno oracle clock] in Hu', Hg'.
  destruct (isnul (char_at name (st_end (strtol10 name)))
            && negb (st_range (strtol10 name)));
    destruct Hu as [_ Hu], Hu' as [_ Hu'], Hg as [_ Hg], Hg' as [_ Hg'];
    rewrite Hu, Hu', Hg, Hg'; split; reflexivity.
Qed.



(** ** [create_tun] of the first document of [src/main.c] *)

(** X29. The earlier [create_tun] is transactional in the same way.  For
    a [tun_fd] that is not null: either it returns 0, has stored the
    descriptor it opened, has closed nothing and has made one
    create-or-attach request, for TUN without packet information; or it
    returns an error, has left the object behind [tun_fd] alone and has
    closed whatever it opened. *)
Theorem MainC_create_tun_transactional (cell : Z) (name : option string)
    (name_buffer_len persistent : Z) (w : world) :
  let run := MainC.create_tun (Some cell) name name_buffer_len persistent w in
  let t := emitted w (snd run) in
  let r := fst (fst (fst run)) in
  (r = 0
   /\ (exists fd, snd (fst (fst run)) = Some fd /\ opened t = [fd])
   /\ closed t = [] /\ attach_flags t = [Z.lor IFF_TUN IFF_NO_PI])
  \/ (r <> 0 /\ snd (fst (fst run)) = Some cell /\ closed t = opened t).
Proof.
  cbv zeta.
  match goal with
  | |- context [MainC.create_tun ?a ?b ?c ?d ?w0] =>
      pattern (MainC.create_tun a b c d w0)
  end;
  match goal with
  | |- ?P _ => set (Q := P)
  end;
  unfold MainC.create_tun; run; subst Q; cbv beta; cbn [fst snd].
  all: erewrite emitted_app by (read_trace; reflexivity).
  all: first
         [ left; split; [reflexivity|];
           split; [eexists; split; reflexivity|]; split; reflexivity
         | right; split; [discriminate|]; split; reflexivity ].
Qed.
